(** * websockets.client: the client side of the opening handshake

    A shallow embedding of [src/websockets/client.py]:
    [WebSocketClientProtocol.handshake], [verify_extensions],
    [verify_subprotocol] and the coroutine [connect], with the Python
    primitives they use ([str.split], [str.strip], [str.join], [str.format],
    [in], [dict.setdefault], tuple unpacking).

    Python objects are mutated in place and keep their mutations when an
    exception propagates, so effectful code lives in a state monad whose
    result is either an exception or a value, and whose state survives the
    exception. *)

From Stdlib Require Import ZArith Lia Ascii String List.
From stdpp Require Import base option list strings pretty gmap.

Local Open Scope string_scope.
Local Open Scope Z_scope.

(** ** Python strings

    A [str] is a sequence of code points; the handshake only handles header
    text, modelled as code points below 256 (one [ascii] each). *)
Module PyStr.

(** [sep.join(l)] *)
Fixpoint join (sep : string) (l : list string) : string :=
  match l with
  | [] => ""
  | [s] => s
  | s :: rest => s +:+ sep +:+ join sep rest
  end.

(** [s.split(c)] for a one-character separator: every occurrence of [c]
    cuts, so the result has one more field than [s] has separators and
    [''.split(',')] is [['']]. *)
Fixpoint split (c : ascii) (s : string) : list string :=
  match s with
  | EmptyString => [""]
  | String a rest =>
      if Ascii.eqb a c then "" :: split c rest
      else match split c rest with
           | [] => [String a ""]
           | w :: ws => String a w :: ws
           end
  end.

(** [ch.isspace()] on code points below 256: the ASCII white space
    (TAB, LF, VT, FF, CR, FS, GS, RS, US, SPACE) and NEL, NBSP. *)
Definition isspace (a : ascii) : bool :=
  let n := nat_of_ascii a in
  ((9 <=? n)%nat && (n <=? 13)%nat)
  || ((28 <=? n)%nat && (n <=? 32)%nat)
  || (n =? 133)%nat || (n =? 160)%nat.

Fixpoint lstrip (s : string) : string :=
  match s with
  | EmptyString => ""
  | String a rest => if isspace a then lstrip rest else s
  end.

(** [rstrip]: a character is dropped when it is white space and everything
    after it was dropped too. *)
Fixpoint rstrip (s : string) : string :=
  match s with
  | EmptyString => ""
  | String a rest =>
      match rstrip rest with
      | EmptyString => if isspace a then "" else String a ""
      | r => String a r
      end
  end.

(** [s.strip()] *)
Definition strip (s : string) : string := rstrip (lstrip s).

(** [ch.lower()] on code points below 256: A-Z, and the Latin-1 capitals
    U+00C0..U+00DE except the multiplication sign U+00D7. *)
Definition lower_char (a : ascii) : ascii :=
  let n := nat_of_ascii a in
  if ((65 <=? n)%nat && (n <=? 90)%nat)
     || ((192 <=? n)%nat && (n <=? 222)%nat && negb (n =? 215)%nat)
  then ascii_of_nat (n + 32) else a.

Fixpoint lower (s : string) : string :=
  match s with
  | EmptyString => ""
  | String a rest => String (lower_char a) (lower rest)
  end.

(** [str(n)] for an [int]. *)
Definition of_int (n : Z) : string := pretty n.

(** [x in l] for a list of strings. *)
Definition mem (x : string) (l : list string) : bool :=
  bool_decide (x ∈ l).

(** Occurs check for one character, [c in s]. *)
Fixpoint has_char (c : ascii) (s : string) : bool :=
  match s with
  | EmptyString => false
  | String a rest => Ascii.eqb a c || has_char c rest
  end.

(** The characters of [s] as one-character strings: what iterating over a
    [str] yields. *)
Fixpoint chars (s : string) : list string :=
  match s with
  | EmptyString => []
  | String a rest => String a "" :: chars rest
  end.

End PyStr.

(** ** Exceptions

    [exn] is what a [raise] can carry, the class [BaseException]: the
    subclasses of [Exception] that this code raises or lets through, any
    other subclass of [Exception], and the exceptions that are not
    instances of [Exception]. [InvalidHandshake msg cause] keeps the
    [__cause__] set by [raise ... from exc]. *)
#[warnings="-register-all"]
Inductive exn : Type :=
| InvalidHandshake (msg : string) (cause : option exn)
| InvalidURI (msg : string)
| TypeError (msg : string)
| ValueError (msg : string)
| AssertionError
| OSError (msg : string)
| OtherException (cls msg : string)
| BaseException (cls msg : string).
    (* an instance of [BaseException] that is not one of [Exception]:
       [KeyboardInterrupt], [SystemExit], [GeneratorExit] and, from
       Python 3.8 on, [asyncio.CancelledError] *)

(** [isinstance(e, Exception)]: what [except Exception] catches. *)
Definition is_Exception (e : exn) : bool :=
  match e with BaseException _ _ => false | _ => true end.

Definition is_TypeError (e : exn) : bool :=
  match e with TypeError _ => true | _ => false end.
Definition is_ValueError (e : exn) : bool :=
  match e with ValueError _ => true | _ => false end.
Definition is_InvalidHandshake (e : exn) : bool :=
  match e with InvalidHandshake _ _ => true | _ => false end.

(** Modelled from the spec: the error taxonomy of its section 7, which names
    failure classes and not Python classes. Caller misuse is what Python
    reports as [ValueError] and [TypeError]; a handshake failure is
    [InvalidHandshake]; a malformed URI is [InvalidURI]; transport failures
    are [OSError]. *)
Inductive error_kind : Type :=
| ConfigurationError | InvalidURIError | TransportError | HandshakeError
| Unclassified.

Definition kind_of (e : exn) : error_kind :=
  match e with
  | ValueError _ | TypeError _ => ConfigurationError
  | InvalidURI _ => InvalidURIError
  | OSError _ => TransportError
  | InvalidHandshake _ _ => HandshakeError
  | AssertionError | OtherException _ _ | BaseException _ _ => Unclassified
  end.

(** ** State and exceptions

    [M S A]: a computation over a mutable state [S] that returns an [A] or
    raises; the state reached is kept in both cases. *)
Definition M (S A : Type) : Type := S → (exn + A) * S.

Definition ret {S A} (a : A) : M S A := λ s, (inr a, s).
Definition raise {S A} (e : exn) : M S A := λ s, (inl e, s).
Definition bind {S A B} (m : M S A) (k : A → M S B) : M S B :=
  λ s, match m s with
       | (inr a, s') => k a s'
       | (inl e, s') => (inl e, s')
       end.
(** [try: m except Exception as exc: h exc]: an exception that is not an
    instance of [Exception] goes through the handler untouched. *)
Definition try_except {S A} (m : M S A) (h : exn → M S A) : M S A :=
  λ s, match m s with
       | (inr a, s') => (inr a, s')
       | (inl e, s') => if is_Exception e then h e s' else (inl e, s')
       end.
Definition gets {S A} (f : S → A) : M S A := λ s, (inr (f s), s).
Definition modify {S} (f : S → S) : M S unit := λ s, (inr tt, f s).
(** A pure step that may raise. *)
Definition lift {S A} (r : exn + A) : M S A := λ s, (r, s).

Declare Scope py_scope.
Delimit Scope py_scope with py.
Notation "x <- m ;; k" := (bind m (λ x, k))
  (at level 100, m at next level, right associativity) : py_scope.
Notation "m ;; k" := (bind m (λ _, k))
  (at level 100, right associativity) : py_scope.
Local Open Scope py_scope.

(** ** Data *)

(** The named tuple returned by [parse_uri]. *)
Record WebSocketURI : Type := {
  secure : bool;
  host : string;
  port : Z;
  resource_name : string;
}.

Definition header : Type := string * string.

(** [email.message.Message]: the headers in order, duplicates kept;
    [get] is case-insensitive on the name and returns the first match. *)
Definition Message : Type := list header.

Fixpoint Message_get (m : Message) (name : string) : option string :=
  match m with
  | [] => None
  | (k, v) :: rest =>
      if String.eqb (PyStr.lower k) (PyStr.lower name) then Some v
      else Message_get rest name
  end.

(** The values [extra_headers] ranges over. Header names and values are
    [str]; an element of an iterable is a tuple or list of [str], a [str],
    an [int] or [None]. *)
Inductive pyitem : Type :=
| ItNone
| ItInt (z : Z)
| ItStr (s : string)
| ItTuple (l : list string).

Inductive pyextra : Type :=
| ExMapping (m : list (string * string))
    (* a [collections.abc.Mapping], as the (key, value) pairs its [items()]
       yields, in its own iteration order; the keys of a [dict] are
       distinct *)
| ExSeq (l : list pyitem)              (* a list, tuple or other iterable *)
| ExStr (s : string)                   (* a [str]: iterates over its characters *)
| ExInt (z : Z).                       (* not iterable *)

(** [iter(x)] for the [for] loop: the elements in order, or [TypeError]. *)
Definition iterate (x : pyextra) : exn + list pyitem :=
  match x with
  | ExMapping m => inr ((λ kv, ItStr kv.1) <$> m)
  | ExSeq l => inr l
  | ExStr s => inr (ItStr <$> PyStr.chars s)
  | ExInt _ => inl (TypeError "'int' object is not iterable")
  end.

(** [m.items()]: one 2-tuple per key, in the iteration order of [m]. *)
Definition items (m : list (string * string)) : pyextra :=
  ExSeq ((λ kv, ItTuple [kv.1; kv.2]) <$> m).

(** [name, value = item] *)
Definition unpack_pair (item : pyitem) : exn + (string * string) :=
  let of_list (l : list string) :=
    match l with
    | [a; b] => inr (a, b)
    | [] | [_] =>
        inl (ValueError ("not enough values to unpack (expected 2, got "
                         +:+ PyStr.of_int (Z.of_nat (length l)) +:+ ")"))
    | _ => inl (ValueError "too many values to unpack (expected 2)")
    end in
  match item with
  | ItNone => inl (TypeError "cannot unpack non-iterable NoneType object")
  | ItInt _ => inl (TypeError "cannot unpack non-iterable int object")
  | ItStr s => of_list (PyStr.chars s)
  | ItTuple l => of_list l
  end.

(** [x not in container] where the container is a list or [None]. *)
Definition not_in (x : string) (container : option (list string)) : exn + bool :=
  match container with
  | None => inl (TypeError "argument of type 'NoneType' is not iterable")
  | Some l => inr (negb (PyStr.mem x l))
  end.

(** Connection states of [websockets.protocol]. *)
Inductive State : Type := CONNECTING | OPEN | CLOSING | CLOSED.

Global Instance State_eq_dec : EqDecision State.
Proof. solve_decision. Defined.

(** The values of the keyword arguments that [connect] passes on to
    [create_connection]. *)
Inductive kwval : Type :=
| KwNone
| KwBool (b : bool)
| KwObject (repr : string).   (* an [ssl.SSLContext], a socket, ... *)

(** What happens on the network: the transport is opened to a host and
    port with some options, bytes are written, a response is awaited, the
    transport is aborted, or it is closed in an orderly way. *)
Inductive event : Type :=
| EvConnect (h : string) (p : Z) (kwds : gmap string kwval)
| EvWrite (data : string)
| EvRead
| EvAbort
| EvClose.

(** What is outside the protocol object: the transport and the log of what
    happened on it, the bits the random generator yields, and the peer, that
    is whether [loop.create_connection] fails and what [read_response] will
    find on the stream (a status code and headers, or the exception it
    raises). *)
Record world : Type := {
  log : list event;
  transport_open : bool;
  random : N;
  connect_error : option exn;
  inbound : exn + (Z * Message);
}.

(** The attributes of a [WebSocketClientProtocol] instance that
    [__init__] and the handshake set. *)
Record protocol : Type := {
  state : State;
  origin : option string;
  available_extensions : option (list string);
  available_subprotocols : option (list string);
  extra_headers : option pyextra;
  request_headers : option Message;
  raw_request_headers : option (list header);
  response_headers : option Message;
  raw_response_headers : option (list header);
  extensions : option (list string);
  subprotocol : option string;
  opening_handshake : option bool;
}.

Record machine : Type := {
  self : protocol;
  net : world;
}.

(** Attribute assignments [self.x = v]. *)
Definition set_state (v : State) (p : protocol) : protocol :=
  {| state := v; origin := origin p;
     available_extensions := available_extensions p;
     available_subprotocols := available_subprotocols p;
     extra_headers := extra_headers p;
     request_headers := request_headers p;
     raw_request_headers := raw_request_headers p;
     response_headers := response_headers p;
     raw_response_headers := raw_response_headers p;
     extensions := extensions p; subprotocol := subprotocol p;
     opening_handshake := opening_handshake p |}.
Definition set_request_headers (v : Message) (p : protocol) : protocol :=
  {| state := state p; origin := origin p;
     available_extensions := available_extensions p;
     available_subprotocols := available_subprotocols p;
     extra_headers := extra_headers p;
     request_headers := Some v;
     raw_request_headers := raw_request_headers p;
     response_headers := response_headers p;
     raw_response_headers := raw_response_headers p;
     extensions := extensions p; subprotocol := subprotocol p;
     opening_handshake := opening_handshake p |}.
Definition set_raw_request_headers (v : list header) (p : protocol) : protocol :=
  {| state := state p; origin := origin p;
     available_extensions := available_extensions p;
     available_subprotocols := available_subprotocols p;
     extra_headers := extra_headers p;
     request_headers := request_headers p;
     raw_request_headers := Some v;
     response_headers := response_headers p;
     raw_response_headers := raw_response_headers p;
     extensions := extensions p; subprotocol := subprotocol p;
     opening_handshake := opening_handshake p |}.
Definition set_response_headers (v : Message) (p : protocol) : protocol :=
  {| state := state p; origin := origin p;
     available_extensions := available_extensions p;
     available_subprotocols := available_subprotocols p;
     extra_headers := extra_headers p;
     request_headers := request_headers p;
     raw_request_headers := raw_request_headers p;
     response_headers := Some v;
     raw_response_headers := raw_response_headers p;
     extensions := extensions p; subprotocol := subprotocol p;
     opening_handshake := opening_handshake p |}.
Definition set_raw_response_headers (v : list header) (p : protocol) : protocol :=
  {| state := state p; origin := origin p;
     available_extensions := available_extensions p;
     available_subprotocols := available_subprotocols p;
     extra_headers := extra_headers p;
     request_headers := request_headers p;
     raw_request_headers := raw_request_headers p;
     response_headers := response_headers p;
     raw_response_headers := Some v;
     extensions := extensions p; subprotocol := subprotocol p;
     opening_handshake := opening_handshake p |}.
Definition set_extensions (v : list string) (p : protocol) : protocol :=
  {| state := state p; origin := origin p;
     available_extensions := available_extensions p;
     available_subprotocols := available_subprotocols p;
     extra_headers := extra_headers p;
     request_headers := request_headers p;
     raw_request_headers := raw_request_headers p;
     response_headers := response_headers p;
     raw_response_headers := raw_response_headers p;
     extensions := Some v; subprotocol := subprotocol p;
     opening_handshake := opening_handshake p |}.
Definition set_subprotocol (v : string) (p : protocol) : protocol :=
  {| state := state p; origin := origin p;
     available_extensions := available_extensions p;
     available_subprotocols := available_subprotocols p;
     extra_headers := extra_headers p;
     request_headers := request_headers p;
     raw_request_headers := raw_request_headers p;
     response_headers := response_headers p;
     raw_response_headers := raw_response_headers p;
     extensions := extensions p; subprotocol := Some v;
     opening_handshake := opening_handshake p |}.
Definition set_opening_handshake (v : bool) (p : protocol) : protocol :=
  {| state := state p; origin := origin p;
     available_extensions := available_extensions p;
     available_subprotocols := available_subprotocols p;
     extra_headers := extra_headers p;
     request_headers := request_headers p;
     raw_request_headers := raw_request_headers p;
     response_headers := response_headers p;
     raw_response_headers := raw_response_headers p;
     extensions := extensions p; subprotocol := subprotocol p;
     opening_handshake := Some v |}.

(** [self.x = v] inside a method. *)
Definition assign (f : protocol → protocol) : M machine unit :=
  modify (λ m, {| self := f (self m); net := net m |}).

(** One more event on the network, the transport open or not after it. *)
Definition record_event (ev : event) (is_open : bool) (w : world) : world :=
  {| log := (log w ++ [ev])%list; transport_open := is_open; random := random w;
     connect_error := connect_error w; inbound := inbound w |}.

Definition on_net (f : world → world) : M machine unit :=
  modify (λ m, {| self := self m; net := f (net m) |}).

(** [WebSocketClientProtocol.__init__], with the class attribute
    [state = CONNECTING]. *)
Definition new_protocol (origin : option string)
    (extensions subprotocols : option (list string))
    (extra_headers : option pyextra) : protocol :=
  {| state := CONNECTING; origin := origin;
     available_extensions := extensions;
     available_subprotocols := subprotocols;
     extra_headers := extra_headers;
     request_headers := None; raw_request_headers := None;
     response_headers := None; raw_response_headers := None;
     extensions := None; subprotocol := None;
     opening_handshake := None |}.

(** ** The client *)

Definition CRLF : string := String "013"%char (String "010"%char "").

(** [set_header = lambda k, v: headers.append((k, v))], on the local list
    [headers]. *)
Definition set_header (k v : string) (headers : list header) : list header :=
  (headers ++ [(k, v)])%list.

(** [for name, value in extra_headers: set_header(name, value)]: stops at
    the first element that does not unpack into two. *)
Fixpoint set_extra_headers (its : list pyitem) (headers : list header)
    : exn + list header :=
  match its with
  | [] => inr headers
  | it :: rest =>
      match unpack_pair it with
      | inl e => inl e
      | inr (name, value) => set_extra_headers rest (set_header name value headers)
      end
  end.

(** The loop of [verify_extensions]. *)
Fixpoint verify_extensions_loop (available : option (list string))
    (server_extensions : list string) : exn + unit :=
  match server_extensions with
  | [] => inr tt
  | server_extension :: rest =>
      match not_in server_extension available with
      | inl e => inl e
      | inr true =>
          inl (InvalidHandshake ("Unknown extension: " +:+ server_extension) None)
      | inr false => verify_extensions_loop available rest
      end
  end.

(** [self.writer.write(request)]. The request is ASCII, so [encode()] keeps
    it character for character. *)
Definition writer_write (data : string) : M machine unit :=
  on_net (λ w, record_event (EvWrite data) (transport_open w) w).

(** Modelled from the spec: [websockets.http.read_response], the external
    HTTP reader [httpReader.readStatusAndHeaders(transport) -> (status,
    headers)]; it returns what the peer sent or raises. *)
Definition read_response : M machine (Z * Message) :=
  on_net (λ w, record_event EvRead (transport_open w) w) ;;
  r <- gets (λ m, inbound (net m)) ;;
  lift r.

(** Modelled from the spec: [WebSocketCommonProtocol.close_connection] of
    [websockets.protocol]. Forced, it aborts the transport
    ([frameEngine.forceClose]: "abort, not graceful close"); not forced, it
    closes the transport in an orderly way. The connection ends CLOSED and
    the call does not raise. *)
Definition close_connection (force : bool) : M machine unit :=
  assign (set_state CLOSED) ;;
  on_net (record_event (if force then EvAbort else EvClose) false).

Section Client.

(** Names of [websockets.http], [websockets.handshake] and
    [websockets.uri] that the client imports. [build_request] draws the
    key from the random generator, passes some headers to [set_header]
    and returns the key: here, from the random bits, the headers it sets
    in order and the key. [check_response] returns or raises. *)
Variable USER_AGENT : string.
Variable build_request : N → list header * string.
Variable check_response : (string → string) → string → exn + unit.
Variable parse_uri : string → exn + WebSocketURI.

Definition verify_extensions (server_extensions : list string) : M machine unit :=
  available <- gets (λ m, available_extensions (self m)) ;;
  lift (verify_extensions_loop available server_extensions).

Definition verify_subprotocol (server_subprotocol : string) : M machine unit :=
  available <- gets (λ m, available_subprotocols (self m)) ;;
  absent <- lift (not_in server_subprotocol available) ;;
  if absent : bool
  then raise (InvalidHandshake ("Unknown subprotocol: " +:+ server_subprotocol) None)
  else ret tt.

Definition handshake (wsuri : WebSocketURI) (origin : option string)
    (available_extensions available_subprotocols : option (list string))
    (extra_headers : option pyextra) : M machine unit :=
  let headers : list header := [] in
  let headers :=
    if bool_decide (port wsuri = (if secure wsuri then 443 else 80))
    then set_header "Host" (host wsuri) headers
    else set_header "Host"
           (host wsuri +:+ ":" +:+ PyStr.of_int (port wsuri)) headers in
  let headers :=
    match origin with
    | Some o => set_header "Origin" o headers
    | None => headers
    end in
  let headers :=
    match available_extensions with
    | Some l => set_header "Sec-WebSocket-Extensions" (PyStr.join ", " l) headers
    | None => headers
    end in
  let headers :=
    match available_subprotocols with
    | Some l => set_header "Sec-WebSocket-Protocol" (PyStr.join ", " l) headers
    | None => headers
    end in
  headers <- match extra_headers with
             | Some x =>
                 let x := match x with ExMapping m => items m | _ => x end in
                 its <- lift (iterate x) ;;
                 lift (set_extra_headers its headers)
             | None => ret headers
             end ;;
  let headers := set_header "User-Agent" USER_AGENT headers in
  bits <- gets (λ m, random (net m)) ;;
  let (emitted, key) := build_request bits in
  let headers := foldl (λ hs kv, set_header kv.1 kv.2 hs) headers emitted in
  assign (set_request_headers headers) ;;
  assign (set_raw_request_headers headers) ;;
  let request := ["GET " +:+ resource_name wsuri +:+ " HTTP/1.1"] in
  let request :=
    (request ++ ((λ kv, kv.1 +:+ ": " +:+ kv.2) <$> headers))%list in
  let request := (request ++ [CRLF])%list in
  let request := PyStr.join CRLF request in
  writer_write request ;;
  response <- try_except read_response
    (λ exc, raise (InvalidHandshake "Malformed HTTP message" (Some exc))) ;;
  let (status_code, headers) := response : Z * Message in
  (if bool_decide (status_code ≠ 101)
   then raise (InvalidHandshake
                 ("Bad status code: " +:+ PyStr.of_int status_code) None)
   else ret tt) ;;
  assign (set_response_headers headers) ;;
  assign (set_raw_response_headers headers) ;;
  let get_header := λ k, default "" (Message_get headers k) in
  lift (check_response get_header key) ;;
  match Message_get headers "Sec-WebSocket-Extensions" with
  | Some extensions =>
      let extensions := PyStr.strip <$> PyStr.split "," extensions in
      verify_extensions extensions ;;
      assign (set_extensions extensions)
  | None => ret tt
  end ;;
  match Message_get headers "Sec-WebSocket-Protocol" with
  | Some subprotocol =>
      verify_subprotocol subprotocol ;;
      assign (set_subprotocol subprotocol)
  | None => ret tt
  end ;;
  current <- gets (λ m, state (self m)) ;;
  (if bool_decide (current = CONNECTING) then ret tt else raise AssertionError) ;;
  assign (set_state OPEN) ;;
  assign (set_opening_handshake true).

(** [kwds.setdefault(k, v)] *)
Definition setdefault (k : string) (v : kwval) (kwds : gmap string kwval)
    : gmap string kwval :=
  match kwds !! k with
  | Some _ => kwds
  | None => <[k := v]> kwds
  end.

(** Modelled from the spec: [loop.create_connection], the collaborator
    [transport.open(host, port, tlsConfig)]. It fails with the peer's
    error and no transport, or opens the transport and builds the
    protocol with [factory]. *)
Definition create_connection (factory : unit → protocol)
    (h : string) (p : Z) (kwds : gmap string kwval) : M world protocol :=
  λ w, match connect_error w with
       | Some e => (inl e, record_event (EvConnect h p kwds) false w)
       | None => (inr (factory tt), record_event (EvConnect h p kwds) true w)
       end.

(** Run a method on the object [p]: the object it has become is
    returned, or the exception. *)
Definition on_object {A} (p : protocol) (m : M machine A) : M world (A * protocol) :=
  λ w, match m {| self := p; net := w |} with
       | (inr a, m') => (inr (a, self m'), net m')
       | (inl e, m') => (inl e, net m')
       end.

Definition connect (uri : string) (kwds : gmap string kwval)
    (origin : option string) (extensions subprotocols : option (list string))
    (extra_headers : option pyextra) : M world protocol :=
  wsuri <- lift (parse_uri uri) ;;
  kwds <- (if secure wsuri then ret (setdefault "ssl" (KwBool true) kwds)
           else if bool_decide ("ssl" ∈ dom kwds)
           then raise (ValueError
                         ("connect() received a SSL context for a ws:// URI. "
                          +:+ "Use a wss:// URI to enable TLS."))
           else ret kwds) ;;
  let factory := λ _ : unit,
    new_protocol origin extensions subprotocols extra_headers in
  protocol <- create_connection factory (host wsuri) (port wsuri) kwds ;;
  r <- on_object protocol
         (try_except
            (handshake wsuri origin extensions subprotocols extra_headers)
            (λ exc, close_connection true ;; raise exc)) ;;
  ret r.2.

End Client.

(** ** A sample environment

    Stand-ins for the imported names, to run the client on concrete inputs.
    The theorems below hold for every choice of them. *)
Module Sample.

Definition USER_AGENT : string := "Python/3.5 websockets/3.2".

Definition build_request (bits : N) : list header * string :=
  let key := "key-" +:+ pretty bits in
  ([("Upgrade", "WebSocket"); ("Connection", "Upgrade");
    ("Sec-WebSocket-Key", key); ("Sec-WebSocket-Version", "13")], key).

Definition check_response (get_header : string → string) (key : string)
    : exn + unit :=
  if String.eqb (get_header "Sec-WebSocket-Accept") ("accept-" +:+ key)
  then inr tt
  else inl (InvalidHandshake "Invalid response headers" None).

Definition parse_uri (uri : string) : exn + WebSocketURI :=
  if String.eqb uri "ws://example.com/chat" then
    inr {| secure := false; host := "example.com"; port := 80;
           resource_name := "/chat" |}
  else if String.eqb uri "wss://example.com/chat" then
    inr {| secure := true; host := "example.com"; port := 443;
           resource_name := "/chat" |}
  else if String.eqb uri "ws://localhost:8765/" then
    inr {| secure := false; host := "localhost"; port := 8765;
           resource_name := "/" |}
  else inl (InvalidURI (uri +:+ " isn't a valid URI")).

Definition handshake := handshake USER_AGENT build_request check_response.
Definition connect := connect USER_AGENT build_request check_response parse_uri.

(** A peer that accepts the connection and answers [status] with
    [headers]; nothing has happened on the network yet. *)
Definition peer (bits : N) (status : Z) (headers : Message) : world :=
  {| log := []; transport_open := false; random := bits;
     connect_error := None; inbound := inr (status, headers) |}.

(** The answer of a well-behaved server to the key drawn from [bits]. *)
Definition accepting (bits : N) (more : Message) : world :=
  peer bits 101 (("Sec-WebSocket-Accept", "accept-key-" +:+ pretty bits) :: more).

(** A fresh protocol object on a transport that has just been opened to
    the peer of [w]. *)
Definition fresh (p : protocol) (w : world) : machine :=
  {| self := p;
     net := {| log := log w; transport_open := true; random := random w;
               connect_error := connect_error w; inbound := inbound w |} |}.

Definition example_com : WebSocketURI :=
  {| secure := false; host := "example.com"; port := 80;
     resource_name := "/chat" |}.

Definition localhost_8765 : WebSocketURI :=
  {| secure := false; host := "localhost"; port := 8765;
     resource_name := "/" |}.

(** No options, a server that accepts. *)
Definition plain : machine :=
  fresh (new_protocol None None None None) (accepting 7 []).

(** The client offers permessage-deflate, the server selects foo. *)
Definition selects_foo : Message :=
  [("Sec-WebSocket-Accept", "accept-key-7");
   ("Sec-WebSocket-Extensions", "foo")].

Definition deflate_offered : machine :=
  fresh (new_protocol None (Some ["permessage-deflate"]) None None)
    (peer 7 101 selects_foo).

(** The client offers chat and superchat, the server lists both. *)
Definition lists_both : Message :=
  [("Sec-WebSocket-Accept", "accept-key-7");
   ("Sec-WebSocket-Protocol", "chat, superchat")].

Definition chats_offered : machine :=
  fresh (new_protocol None None (Some ["chat"; "superchat"]) None)
    (peer 7 101 lists_both).

(** The request headers of the sample client with no options. *)
Definition plain_headers (host_value : string) : list header :=
  [("Host", host_value); ("User-Agent", USER_AGENT);
   ("Upgrade", "WebSocket"); ("Connection", "Upgrade");
   ("Sec-WebSocket-Key", "key-7"); ("Sec-WebSocket-Version", "13")].

End Sample.

(** ** The phases of the handshake

    [handshake] is one function in the source. Its three parts (build the
    request headers, send them, validate the response) are named here and
    [handshake_phases] shows that the function is their sequence. *)
Section Phases.

Variable USER_AGENT : string.
Variable build_request : N → list header * string.
Variable check_response : (string → string) → string → exn + unit.

(** The value of the Host header. *)
Definition host_value (wsuri : WebSocketURI) : string :=
  if bool_decide (port wsuri = (if secure wsuri then 443 else 80))
  then host wsuri
  else host wsuri +:+ ":" +:+ PyStr.of_int (port wsuri).

(** The header an offer list contributes. *)
Definition offer_header (name : string) (offers : option (list string))
    : list header :=
  match offers with
  | Some l => [(name, PyStr.join ", " l)]
  | None => []
  end.

(** The headers set before [extra_headers] is looked at. *)
Definition own_headers (wsuri : WebSocketURI) (origin : option string)
    (available_extensions available_subprotocols : option (list string))
    : list header :=
  (("Host", host_value wsuri)
   :: match origin with Some o => [("Origin", o)] | None => [] end
   ++ offer_header "Sec-WebSocket-Extensions" available_extensions
   ++ offer_header "Sec-WebSocket-Protocol" available_subprotocols)%list.

(** The pairs [extra_headers] contributes, or the exception of the loop. *)
Definition extra_pairs (extra_headers : option pyextra) : exn + list header :=
  match extra_headers with
  | Some x =>
      match iterate (match x with ExMapping m => items m | _ => x end) with
      | inl e => inl e
      | inr its => set_extra_headers its []
      end
  | None => inr []
  end.

(** The whole header sequence of the request. *)
Definition request_header_list (wsuri : WebSocketURI) (origin : option string)
    (available_extensions available_subprotocols : option (list string))
    (extras : list header) (bits : N) : list header :=
  (own_headers wsuri origin available_extensions available_subprotocols
   ++ extras ++ ("User-Agent", USER_AGENT) :: (build_request bits).1)%list.

(** The request as written on the transport. *)
Definition request_text (wsuri : WebSocketURI) (headers : list header) : string :=
  PyStr.join CRLF
    ((("GET " +:+ resource_name wsuri +:+ " HTTP/1.1")
      :: ((λ kv, kv.1 +:+ ": " +:+ kv.2) <$> headers)) ++ [CRLF])%list.

(** The machine once the request is written. *)
Definition sent (wsuri : WebSocketURI) (headers : list header) (m : machine)
    : machine :=
  {| self := set_raw_request_headers headers
               (set_request_headers headers (self m));
     net := record_event (EvWrite (request_text wsuri headers))
              (transport_open (net m)) (net m) |}.

(** The machine once the response has been asked for. *)
Definition awaited (m : machine) : machine :=
  {| self := self m;
     net := record_event EvRead (transport_open (net m)) (net m) |}.

(** The machine once a response with status 101 is stored. *)
Definition stored (headers : Message) (m : machine) : machine :=
  {| self := set_raw_response_headers headers
               (set_response_headers headers (self m));
     net := net m |}.

(** The extensions the response selects. *)
Definition negotiate_extensions (headers : Message) : M machine unit :=
  match Message_get headers "Sec-WebSocket-Extensions" with
  | Some extensions =>
      let extensions := PyStr.strip <$> PyStr.split "," extensions in
      verify_extensions extensions ;;
      assign (set_extensions extensions)
  | None => ret tt
  end.

(** The subprotocol the response selects. *)
Definition negotiate_subprotocol (headers : Message) : M machine unit :=
  match Message_get headers "Sec-WebSocket-Protocol" with
  | Some subprotocol =>
      verify_subprotocol subprotocol ;;
      assign (set_subprotocol subprotocol)
  | None => ret tt
  end.

(** The transition to OPEN that ends [handshake]. *)
Definition open_connection : M machine unit :=
  current <- gets (λ m, state (self m)) ;;
  (if bool_decide (current = CONNECTING) then ret tt else raise AssertionError) ;;
  assign (set_state OPEN) ;;
  assign (set_opening_handshake true).

(** From [read_response] to the end of [handshake]. *)
Definition validate (key : string) : M machine unit :=
  response <- try_except read_response
    (λ exc, raise (InvalidHandshake "Malformed HTTP message" (Some exc))) ;;
  let (status_code, headers) := response : Z * Message in
  (if bool_decide (status_code ≠ 101)
   then raise (InvalidHandshake
                 ("Bad status code: " +:+ PyStr.of_int status_code) None)
   else ret tt) ;;
  assign (set_response_headers headers) ;;
  assign (set_raw_response_headers headers) ;;
  let get_header := λ k, default "" (Message_get headers k) in
  lift (check_response get_header key) ;;
  negotiate_extensions headers ;;
  negotiate_subprotocol headers ;;
  open_connection.

(** What a response must satisfy for the handshake to go through, for a
    protocol object [p] and the key [key] of the request. *)
Definition accepted_response (key : string) (p : protocol)
    (response : exn + (Z * Message)) : Prop :=
  ∃ headers,
    response = inr (101, headers) ∧
    check_response (λ k, default "" (Message_get headers k)) key = inr tt ∧
    (∀ v, Message_get headers "Sec-WebSocket-Extensions" = Some v →
       ∃ offers, available_extensions p = Some offers ∧
         Forall (λ t, t ∈ offers) (PyStr.strip <$> PyStr.split "," v)) ∧
    (∀ v, Message_get headers "Sec-WebSocket-Protocol" = Some v →
       ∃ offers, available_subprotocols p = Some offers ∧ v ∈ offers).

(** [connect] from [create_connection] on, with the options [kwds] that
    the TLS policy settled. *)
Definition establish (wsuri : WebSocketURI) (kwds : gmap string kwval)
    (origin : option string) (exts subs : option (list string))
    (eh : option pyextra) (w : world) : (exn + protocol) * world :=
  match connect_error w with
  | Some e =>
      (inl e, record_event (EvConnect (host wsuri) (port wsuri) kwds) false w)
  | None =>
      match handshake USER_AGENT build_request check_response
              wsuri origin exts subs eh
              {| self := new_protocol origin exts subs eh;
                 net := record_event
                          (EvConnect (host wsuri) (port wsuri) kwds) true w |}
      with
      | (inr _, m') => (inr (self m'), net m')
      | (inl e, m') =>
          if is_Exception e
          then (inl e, record_event EvAbort false (net m'))
          else (inl e, net m')
      end
  end.

End Phases.

(** ** Shapes of [extra_headers] *)

Definition is_mapping (x : pyextra) : bool :=
  match x with ExMapping _ => true | _ => false end.

(** What the specification calls a (name, value) pair: a tuple or list of
    a name and a value. *)
Definition name_value_pair (it : pyitem) : bool :=
  match it with
  | ItTuple [_; _] => true
  | _ => false
  end.

(** What the specification calls an iterable of (name, value) pairs. *)
Definition iterable_of_name_value_pairs (x : pyextra) : bool :=
  match x with
  | ExSeq its => forallb name_value_pair its
  | _ => false
  end.

(** The shape of an element that has exactly two items, whatever they
    are: a tuple or list of two strings, and also a string of two
    characters. *)
Definition pair_like (it : pyitem) : bool :=
  match it with
  | ItTuple [_; _] => true
  | ItStr (String _ (String _ EmptyString)) => true
  | _ => false
  end.

(** An iterable whose elements all have this shape. *)
Definition iterable_of_pairs (x : pyextra) : bool :=
  match iterate x with
  | inl _ => false
  | inr its => forallb pair_like its
  end.

(** The 2-tuple [(name, value)]. *)
Definition pair_item (kv : header) : pyitem := ItTuple [kv.1; kv.2].

(** How many headers of a sequence have the name [name]. *)
Definition occurrences (name : string) (hs : list header) : nat :=
  length (filter (λ kv, kv.1 = name) hs).

(** ** The request on the wire *)

(** One line per header, each ended by CRLF. *)
Fixpoint header_lines (hs : list header) : string :=
  match hs with
  | [] => ""
  | (k, v) :: rest => k +:+ ": " +:+ v +:+ CRLF +:+ header_lines rest
  end.

(** An HTTP/1.1 GET request without a body: the request line, the header
    lines and an empty line. *)
Definition wire_request (resource : string) (hs : list header) : string :=
  "GET " +:+ resource +:+ " HTTP/1.1" +:+ CRLF +:+ header_lines hs +:+ CRLF.

(** A token of a comma-separated header value: no comma inside, no white
    space at either end. *)
Definition token_like (t : string) : Prop :=
  PyStr.has_char "," t = false ∧ PyStr.strip t = t.

(** ** The protocol object after the negotiation *)

(** [self.extensions = extensions], when the response has the header. *)
Definition with_extensions (headers : Message) (m : machine) : machine :=
  match Message_get headers "Sec-WebSocket-Extensions" with
  | Some v =>
      {| self := set_extensions (PyStr.strip <$> PyStr.split "," v) (self m);
         net := net m |}
  | None => m
  end.

(** [self.subprotocol = subprotocol], when the response has the header. *)
Definition with_subprotocol (headers : Message) (m : machine) : machine :=
  match Message_get headers "Sec-WebSocket-Protocol" with
  | Some v => {| self := set_subprotocol v (self m); net := net m |}
  | None => m
  end.

(** [self.state = OPEN] and the result of [opening_handshake]. *)
Definition opened (m : machine) : machine :=
  {| self := set_opening_handshake true (set_state OPEN (self m));
     net := net m |}.

(** ** The scripts that use the client

    [src/compliance/test_client.py] runs the test cases of a compliance
    server and [src/example/oldclient.py] says hello. Seen from outside, a
    script is the sequence of the operations it awaits or calls, oldest
    first. *)

(** The [klass] argument of [connect]. Both classes have the handshake of
    [WebSocketClientProtocol]. *)
Inductive klass : Type := WebSocketClientProtocol | EchoClientProtocol.

Inductive op : Type :=
| OpConnect (uri : string) (k : klass)   (* [websockets.connect(uri, klass=k)] *)
| OpSend (msg : string)                  (* [ws.send(msg)] *)
| OpRecv                                 (* [ws.recv()] *)
| OpClose                                (* [ws.close()] *)
| OpWorker                               (* [await ws.worker_task] *)
| OpInput (prompt : string)              (* [input(prompt)] *)
| OpPrint (text ending : string).        (* [print(text, end=ending)] *)

(** [try: body finally: finalizer]: the finalizer runs on every path; when
    it raises, its exception replaces the outcome of the body. *)
Definition try_finally {S A} (body : M S A) (finalizer : M S unit) : M S A :=
  λ s, match body s with
       | (r, s') =>
           match finalizer s' with
           | (inl e, s'') => (inl e, s'')
           | (inr _, s'') => (r, s'')
           end
       end.

(** [for x in l: body(x)] *)
Fixpoint for_each {S A} (l : list A) (body : A → M S unit) : M S unit :=
  match l with
  | [] => ret tt
  | x :: rest => body x ;; for_each rest body
  end.

Definition CR : string := String "013"%char "".
Definition LF : string := String "010"%char "".

Section Scripts.

Variable USER_AGENT : string.
Variable build_request : N → list header * string.
Variable check_response : (string → string) → string → exn + unit.
Variable parse_uri : string → exn + WebSocketURI.

(** [json.loads], for a test server that answers with an integer. *)
Variable json_loads : string → exn + Z.

(** The outside of a script, as a function of what it has done so far, the
    operation under way included: the peer a connection meets, and what an
    operation of the connection or of the terminal returns or raises (a
    message for [recv], a line for [input]). *)
Variable peer : list op → world.
Variable answer : list op → exn + string.

(** [await websockets.connect(uri, klass=k)], with no other option. *)
Definition websockets_connect (uri : string) (k : klass) : M (list op) protocol :=
  λ t, let t' := (t ++ [OpConnect uri k])%list in
       ((connect USER_AGENT build_request check_response parse_uri
           uri ∅ None None None None (peer t')).1, t').

(** An awaited method of the connection, or [input]. *)
Definition perform (o : op) : M (list op) string :=
  λ t, let t' := (t ++ [o])%list in (answer t', t').

Definition print (text ending : string) : M (list op) unit :=
  modify (λ t, (t ++ [OpPrint text ending])%list).

Definition get_case_count (server : string) : M (list op) Z :=
  let uri := server +:+ "/getCaseCount" in
  ws <- websockets_connect uri WebSocketClientProtocol ;;
  msg <- perform OpRecv ;;
  perform OpClose ;;
  lift (json_loads msg).

Definition run_case (server : string) (case : Z) (agent : string)
    : M (list op) unit :=
  let uri := server +:+ "/runCase?case=" +:+ PyStr.of_int case
             +:+ "&agent=" +:+ agent in
  ws <- websockets_connect uri EchoClientProtocol ;;
  perform OpWorker ;;
  ret tt.

Definition update_reports (server agent : string) : M (list op) unit :=
  let uri := server +:+ "/updateReports?agent=" +:+ agent in
  ws <- websockets_connect uri WebSocketClientProtocol ;;
  perform OpClose ;;
  ret tt.

Definition run_tests (server agent : string) : M (list op) unit :=
  cases <- get_case_count server ;;
  for_each (seqZ 1 cases)
    (λ case,
       print ("Running test case " +:+ PyStr.of_int case +:+ " out of "
              +:+ PyStr.of_int cases) CR ;;
       run_case server case agent) ;;
  print ("Ran " +:+ PyStr.of_int cases +:+ " test cases               ") LF ;;
  update_reports server agent.

Definition hello : M (list op) unit :=
  websocket <- websockets_connect "ws://localhost:8765/" WebSocketClientProtocol ;;
  try_finally
    (name <- perform (OpInput "What's your name? ") ;;
     perform (OpSend name) ;;
     print ("> " +:+ name) LF ;;
     greeting <- perform OpRecv ;;
     print ("< " +:+ greeting) LF)
    (perform OpClose ;; ret tt).

(** What one test case adds to the operations of [run_tests]. *)
Definition case_ops (server agent : string) (cases case : Z) : list op :=
  [OpPrint ("Running test case " +:+ PyStr.of_int case +:+ " out of "
            +:+ PyStr.of_int cases) CR;
   OpConnect (server +:+ "/runCase?case=" +:+ PyStr.of_int case
              +:+ "&agent=" +:+ agent) EchoClientProtocol;
   OpWorker].

End Scripts.

(** The constants of [test_client.py]; [urllib.parse.quote] leaves the
    letters of [AGENT] as they are. *)
Definition SERVER : string := "ws://127.0.0.1:8642".
Definition AGENT : string := "websockets".

(** A compliance server for the sample client: every URI under [SERVER]
    parses, every connection is accepted, and every message or line is
    "2". *)
Module SampleLab.

Definition parse_uri (uri : string) : exn + WebSocketURI :=
  if String.prefix SERVER uri
  then inr {| secure := false; host := "127.0.0.1"; port := 8642;
              resource_name :=
                String.substring 19 (String.length uri - 19) uri |}
  else if String.eqb uri "ws://localhost:8765/"
  then inr {| secure := false; host := "localhost"; port := 8765;
              resource_name := "/" |}
  else inl (InvalidURI (uri +:+ " isn't a valid URI")).

Definition json_loads (msg : string) : exn + Z :=
  if String.eqb msg "2" then inr 2
  else inl (ValueError "Expecting value").

Definition peer (t : list op) : world := Sample.accepting 7 [].

Definition answer (t : list op) : exn + string := inr "2".

(** The same server, on which every [recv] fails. *)
Definition deaf (t : list op) : exn + string :=
  match last t with
  | Some OpRecv => inl (OtherException "ConnectionClosed" "")
  | _ => inr "2"
  end.

Definition get_case_count (answer : list op → exn + string) :=
  get_case_count Sample.USER_AGENT Sample.build_request Sample.check_response
    parse_uri json_loads peer answer.
Definition run_tests :=
  run_tests Sample.USER_AGENT Sample.build_request Sample.check_response
    parse_uri json_loads peer answer.
Definition hello (answer : list op → exn + string) :=
  hello Sample.USER_AGENT Sample.build_request Sample.check_response
    parse_uri peer answer.

End SampleLab.

(** ** Tactics *)

Ltac fields :=
  cbn [fst snd self net state set_state
       set_opening_handshake set_extensions set_subprotocol
       set_response_headers set_raw_response_headers set_request_headers
       set_raw_request_headers record_event inbound random
       available_extensions available_subprotocols extensions subprotocol
       awaited stored sent log transport_open connect_error
       request_headers raw_request_headers response_headers
       raw_response_headers opening_handshake] in *.

Ltac run_step :=
  unfold bind, try_except, writer_write, read_response, verify_extensions,
    verify_subprotocol, close_connection, assign, on_net, ret, raise, lift,
    gets, modify in *;
  fields.

Ltac run := repeat progress run_step.

(** ** Lemmas on the Python primitives *)

Example split_ex : PyStr.split "," "a, b,,c" = ["a"; " b"; ""; "c"].
Proof. reflexivity. Qed.
Example strip_ex : PyStr.strip "  x y  " = "x y".
Proof. reflexivity. Qed.
Example join_ex : PyStr.join ", " ["a"; "b"; "c"] = "a, b, c".
Proof. reflexivity. Qed.
Example of_int_ex : PyStr.of_int 8765 = "8765" ∧ PyStr.of_int (-3) = "-3" ∧ PyStr.of_int 0 = "0".
Proof. vm_compute. auto. Qed.
Example mem_ex : PyStr.mem "b" ["a"; "b"] = true ∧ PyStr.mem "c" ["a"; "b"] = false.
Proof. vm_compute. auto. Qed.


Lemma append_nil_r (s : string) : s +:+ "" = s.
Proof.
  induction s as [|a s IH]; [done|].
  change (String a (s +:+ "") = String a s). by rewrite IH.
Qed.

Lemma append_length (s t : string) :
  String.length (s +:+ t) = (String.length s + String.length t)%nat.
Proof.
  induction s as [|a s IH]; [done|].
  change (S (String.length (s +:+ t)) = S (String.length s + String.length t)).
  by rewrite IH.
Qed.

(** Appending a non-empty suffix changes the string. *)
Lemma append_cons_neq (s : string) (a : ascii) (t : string) :
  s +:+ String a t ≠ s.
Proof.
  intros H. apply (f_equal String.length) in H.
  rewrite append_length in H. simpl in H. lia.
Qed.

Lemma mem_true (x : string) (l : list string) : PyStr.mem x l = true ↔ x ∈ l.
Proof. unfold PyStr.mem. by rewrite bool_decide_eq_true. Qed.

Lemma mem_false (x : string) (l : list string) : PyStr.mem x l = false ↔ x ∉ l.
Proof. unfold PyStr.mem. by rewrite bool_decide_eq_false. Qed.

Lemma foldl_set_header (emitted hs : list header) :
  foldl (λ hs kv, set_header kv.1 kv.2 hs) hs emitted = (hs ++ emitted)%list.
Proof.
  revert hs. induction emitted as [|[k v] emitted IH]; intros hs; simpl.
  - by rewrite app_nil_r.
  - rewrite IH. unfold set_header. by rewrite <- app_assoc.
Qed.

(** The loop over [extra_headers] appends to the headers it is given. *)
Lemma set_extra_headers_from (its : list pyitem) (hs : list header) :
  set_extra_headers its hs =
  match set_extra_headers its [] with
  | inl e => inl e
  | inr kvs => inr (hs ++ kvs)%list
  end.
Proof.
  revert hs. induction its as [|it its IH]; intros hs; simpl.
  - by rewrite app_nil_r.
  - destruct (unpack_pair it) as [e|[name value]]; [done|].
    rewrite (IH (set_header name value hs)), (IH (set_header name value [])).
    destruct (set_extra_headers its []) as [e|kvs]; [done|].
    unfold set_header. simpl. by rewrite <- app_assoc.
Qed.

(** The loop succeeds exactly when every element unpacks into a pair, and
    then yields these pairs in order. *)
Lemma set_extra_headers_ok (its : list pyitem) (kvs : list header) :
  set_extra_headers its [] = inr kvs ↔
  Forall2 (λ it kv, unpack_pair it = inr kv) its kvs.
Proof.
  revert kvs. induction its as [|it its IH]; intros kvs; simpl.
  - split.
    + intros [= <-]. constructor.
    + intros H. by inversion H.
  - destruct (unpack_pair it) as [e|[name value]] eqn:Hit.
    + split; [done|].
      intros H. apply Forall2_cons_inv_l in H as (kv & kvs' & Hkv & _ & ->).
      congruence.
    + rewrite set_extra_headers_from.
      destruct (set_extra_headers its []) as [e|kvs'] eqn:Hrest.
      * split; [done|].
        intros H. apply Forall2_cons_inv_l in H as (kv & kvs' & _ & Hrest' & ->).
        apply IH in Hrest'. congruence.
      * split.
        -- intros [= <-]. constructor; [done|]. by apply IH.
        -- intros H. apply Forall2_cons_inv_l in H as (kv & kvs'' & Hkv & Hrest' & ->).
           apply IH in Hrest'. unfold set_header. simpl.
           rewrite Hit in Hkv. injection Hkv as <-. by injection Hrest' as <-.
Qed.

(** The loop raises the exception of the first element that does not
    unpack. *)
Lemma set_extra_headers_err (its : list pyitem) (e : exn) :
  set_extra_headers its [] = inl e →
  ∃ it, it ∈ its ∧ unpack_pair it = inl e.
Proof.
  induction its as [|it its IH]; simpl; [done|].
  destruct (unpack_pair it) as [e'|[name value]] eqn:Hit.
  - intros [= <-]. exists it. split; [left | done].
  - rewrite set_extra_headers_from.
    destruct (set_extra_headers its []) as [e'|kvs]; [|done].
    intros [= <-]. destruct IH as (it' & Hin & Hun); [done|].
    exists it'. split; [by right | done].
Qed.

Lemma unpack_pair_error_kind (it : pyitem) (e : exn) :
  unpack_pair it = inl e → is_TypeError e || is_ValueError e = true.
Proof.
  destruct it as [| z | s | l]; simpl.
  - by intros [= <-].
  - by intros [= <-].
  - destruct (PyStr.chars s) as [|a [|b [|c l]]]; intros [= <-]; done.
  - destruct l as [|a [|b [|c l]]]; intros [= <-]; done.
Qed.

(** [verify_extensions] against a list: the first token that was not
    offered decides. *)
Lemma verify_extensions_loop_find (offers tokens : list string) :
  verify_extensions_loop (Some offers) tokens =
  match List.find (λ t, negb (PyStr.mem t offers)) tokens with
  | Some t => inl (InvalidHandshake ("Unknown extension: " +:+ t) None)
  | None => inr tt
  end.
Proof.
  induction tokens as [|t tokens IH]; simpl; [done|].
  by destruct (negb (PyStr.mem t offers)).
Qed.

Lemma verify_extensions_loop_ok (offers tokens : list string) :
  verify_extensions_loop (Some offers) tokens = inr tt ↔
  Forall (λ t, t ∈ offers) tokens.
Proof.
  induction tokens as [|t tokens IH]; simpl.
  - split; [constructor | done].
  - destruct (PyStr.mem t offers) eqn:Ht; simpl.
    + apply mem_true in Ht. rewrite IH. split.
      * by constructor.
      * intros H. by apply Forall_cons in H as [_ H].
    + apply mem_false in Ht. split; [done|].
      intros H. by apply Forall_cons in H as [H _].
Qed.

(** Against [None] the first membership test raises. *)
Lemma verify_extensions_loop_None (t : string) (tokens : list string) :
  verify_extensions_loop None (t :: tokens) =
  inl (TypeError "argument of type 'NoneType' is not iterable").
Proof. reflexivity. Qed.

(** [split] yields at least one field. *)
Lemma split_cons (c : ascii) (s : string) :
  ∃ t ts, PyStr.split c s = t :: ts.
Proof.
  destruct s as [|a s]; simpl; [by eexists _, _|].
  destruct (Ascii.eqb a c); [by eexists _, _|].
  destruct (PyStr.split c s); by eexists _, _.
Qed.

(** A successful [verify_extensions] of a header value means that a list
    was offered and holds every token. *)
Lemma verify_extensions_loop_checked (available : option (list string))
    (v : string) :
  verify_extensions_loop available (PyStr.strip <$> PyStr.split "," v) = inr tt →
  ∃ offers, available = Some offers ∧
    Forall (λ t, t ∈ offers) (PyStr.strip <$> PyStr.split "," v).
Proof.
  destruct available as [offers|].
  - intros H. exists offers. split; [done|]. by apply verify_extensions_loop_ok.
  - destruct (split_cons "," v) as (t & ts & ->). discriminate.
Qed.

Lemma not_in_false (x : string) (available : option (list string)) :
  not_in x available = inr false →
  ∃ offers, available = Some offers ∧ x ∈ offers.
Proof.
  destruct available as [offers|]; simpl; [|done].
  intros [= H]. apply negb_false_iff, mem_true in H. by exists offers.
Qed.

(** The first token that was not offered. *)
Lemma find_unknown (offers tokens : list string) :
  Exists (λ t, t ∉ offers) tokens →
  ∃ t, List.find (λ t, negb (PyStr.mem t offers)) tokens = Some t ∧
       t ∈ tokens ∧ t ∉ offers.
Proof.
  induction 1 as [t tokens Ht | t tokens _ IH]; simpl.
  - apply mem_false in Ht as Hmem. rewrite Hmem. simpl.
    exists t. split_and!; [done | left | done].
  - destruct (PyStr.mem t offers) eqn:Hmem; simpl.
    + destruct IH as (t' & Hfind & Hin & Hout).
      exists t'. split_and!; [done | by right | done].
    + apply mem_false in Hmem.
      exists t. split_and!; [done | left | done].
Qed.

(** A string with a comma is none of a list of strings without. *)
Lemma comma_not_offered (v : string) (offers : list string) :
  PyStr.has_char "," v = true →
  Forall (λ o, PyStr.has_char "," o = false) offers →
  v ∉ offers.
Proof.
  intros Hv Hoffers Hin.
  rewrite Forall_forall in Hoffers. apply Hoffers in Hin. congruence.
Qed.

Lemma not_pair_like_unpack (it : pyitem) :
  pair_like it = false → ∃ e, unpack_pair it = inl e.
Proof.
  destruct it as [| z | s | l]; simpl.
  - intros _. eexists. reflexivity.
  - intros _. eexists. reflexivity.
  - destruct s as [|a [|b [|c s]]]; simpl; intros H; try discriminate H;
      eexists; reflexivity.
  - destruct l as [|a [|b [|c l]]]; simpl; intros H; try discriminate H;
      eexists; reflexivity.
Qed.

Lemma not_all_pair_like (its : list pyitem) :
  forallb pair_like its = false → ∃ e, set_extra_headers its [] = inl e.
Proof.
  induction its as [|it its IH]; simpl; [done|].
  destruct (pair_like it) eqn:Hit; simpl.
  - intros (e & He)%IH.
    destruct (unpack_pair it) as [e'|[name value]]; [by eexists|].
    rewrite set_extra_headers_from, He. by eexists.
  - intros _. apply not_pair_like_unpack in Hit as [e ->]. by eexists.
Qed.

Lemma pair_items_unpack (pairs : list header) :
  set_extra_headers (pair_item <$> pairs) [] = inr pairs.
Proof.
  apply set_extra_headers_ok.
  induction pairs as [|[k v] pairs IH]; constructor; done.
Qed.

Lemma occurrences_app (name : string) (hs1 hs2 : list header) :
  occurrences name (hs1 ++ hs2) = (occurrences name hs1 + occurrences name hs2)%nat.
Proof. unfold occurrences. by rewrite filter_app, length_app. Qed.

Lemma occurrences_cons (name k v : string) (hs : list header) :
  occurrences name ((k, v) :: hs) =
  ((if decide (k = name) then 1 else 0) + occurrences name hs)%nat.
Proof.
  unfold occurrences. rewrite filter_cons. simpl. by case_decide.
Qed.

Lemma occurrences_absent (k : string) (hs : list header) :
  k ∉ hs.*1 → occurrences k hs = 0%nat.
Proof.
  unfold occurrences.
  induction hs as [|[k' v'] hs IH]; simpl; [done|].
  intros [Hne Hout]%not_elem_of_cons.
  rewrite filter_cons_False; [by apply IH|]. simpl. congruence.
Qed.

(** In a sequence without repeated names, a name that is there is there
    once. *)
Lemma occurrences_NoDup (k v : string) (hs : list header) :
  NoDup hs.*1 → (k, v) ∈ hs → occurrences k hs = 1%nat.
Proof.
  induction hs as [|[k' v'] hs IH]; simpl; [by intros _ ?%elem_of_nil|].
  intros [Hfresh Hnodup]%NoDup_cons [Heq|Hin]%elem_of_cons.
  - injection Heq as <- <-.
    change ((k, v) :: hs) with ([(k, v)] ++ hs)%list.
    rewrite occurrences_app, (occurrences_absent k hs); [|done].
    unfold occurrences. by rewrite filter_cons_True.
  - change ((k', v') :: hs) with ([(k', v')] ++ hs)%list.
    rewrite occurrences_app, IH; [|done..].
    unfold occurrences. rewrite filter_cons_False; [done|].
    simpl. intros ->. apply Hfresh.
    apply list_elem_of_fmap. by exists (k, v).
Qed.

(** ** The handshake, phase by phase *)
Section ClientProofs.

Variable USER_AGENT : string.
Variable build_request : N → list header * string.
Variable check_response : (string → string) → string → exn + unit.
Variable parse_uri : string → exn + WebSocketURI.

Local Abbreviation handshake :=
  (handshake USER_AGENT build_request check_response).
Local Abbreviation connect :=
  (connect USER_AGENT build_request check_response parse_uri).
Local Abbreviation validate := (validate check_response).
Local Abbreviation request_header_list :=
  (request_header_list USER_AGENT build_request).
Local Abbreviation accepted_response := (accepted_response check_response).
Local Abbreviation establish :=
  (establish USER_AGENT build_request check_response).

Lemma handshake_phases wsuri origin ae asp eh (m : machine) :
  handshake wsuri origin ae asp eh m =
  match extra_pairs eh with
  | inl e => (inl e, m)
  | inr extras =>
      validate (build_request (random (net m))).2
        (sent wsuri
           (request_header_list wsuri origin ae asp extras (random (net m))) m)
  end.
Proof.
  unfold handshake.
  set (own := match asp with Some l => _ | None => _ end).
  assert (own = own_headers wsuri origin ae asp) as ->.
  { unfold own, own_headers, host_value, offer_header, set_header.
    destruct (bool_decide _), origin, ae, asp; reflexivity. }
  unfold bind at 1.
  lazymatch goal with
  | |- match ?first m with _ => _ end = _ =>
      assert (first m =
              match extra_pairs eh with
              | inl e => (inl e, m)
              | inr extras =>
                  (inr (own_headers wsuri origin ae asp ++ extras)%list, m)
              end) as ->
  end.
  { unfold extra_pairs. destruct eh as [x|].
    - unfold bind, lift. destruct (iterate _) as [e|its]; [done|].
      rewrite set_extra_headers_from.
      by destruct (set_extra_headers its []).
    - unfold ret. by rewrite app_nil_r. }
  destruct (extra_pairs eh) as [e|extras]; [done|].
  unfold bind at 1, gets at 1.
  unfold request_header_list.
  destruct (build_request (random (net m))) as [emitted key].
  rewrite foldl_set_header. unfold set_header.
  rewrite <- !app_assoc. reflexivity.
Qed.

Lemma negotiate_extensions_run headers (m : machine) :
  negotiate_extensions headers m =
  match Message_get headers "Sec-WebSocket-Extensions" with
  | Some v =>
      let tokens := PyStr.strip <$> PyStr.split "," v in
      match verify_extensions_loop (available_extensions (self m)) tokens with
      | inl e => (inl e, m)
      | inr _ => (inr tt, {| self := set_extensions tokens (self m); net := net m |})
      end
  | None => (inr tt, m)
  end.
Proof.
  unfold negotiate_extensions.
  destruct (Message_get _ _) as [v|]; run; [|done].
  by destruct (verify_extensions_loop _ _).
Qed.

Lemma negotiate_subprotocol_run headers (m : machine) :
  negotiate_subprotocol headers m =
  match Message_get headers "Sec-WebSocket-Protocol" with
  | Some v =>
      match not_in v (available_subprotocols (self m)) with
      | inl e => (inl e, m)
      | inr true => (inl (InvalidHandshake ("Unknown subprotocol: " +:+ v) None), m)
      | inr false => (inr tt, {| self := set_subprotocol v (self m); net := net m |})
      end
  | None => (inr tt, m)
  end.
Proof.
  unfold negotiate_subprotocol.
  destruct (Message_get _ _) as [v|]; run; [|done].
  by destruct (not_in _ _) as [e|[]].
Qed.

Lemma open_connection_run (m : machine) :
  open_connection m =
  if bool_decide (state (self m) = CONNECTING)
  then (inr tt, {| self := set_opening_handshake true (set_state OPEN (self m));
                   net := net m |})
  else (inl AssertionError, m).
Proof. unfold open_connection. run. by destruct (bool_decide _). Qed.

Lemma validate_run key (m : machine) :
  validate key m =
  match inbound (net m) with
  | inl e =>
      (inl (if is_Exception e
            then InvalidHandshake "Malformed HTTP message" (Some e) else e),
       awaited m)
  | inr (status_code, headers) =>
      if bool_decide (status_code ≠ 101)
      then (inl (InvalidHandshake
                   ("Bad status code: " +:+ PyStr.of_int status_code) None),
            awaited m)
      else
        match check_response (λ k, default "" (Message_get headers k)) key with
        | inl e => (inl e, stored headers (awaited m))
        | inr _ =>
            (negotiate_extensions headers ;;
             negotiate_subprotocol headers ;;
             open_connection) (stored headers (awaited m))
        end
  end.
Proof.
  unfold validate. run.
  destruct (inbound (net m)) as [e|[status_code headers]];
    [by destruct (is_Exception e)|].
  destruct (bool_decide _); [done|].
  by destruct (check_response _ key) as [e|[]].
Qed.

Lemma validate_open key (m : machine) r m' :
  validate key m = (r, m') →
  state (self m) = CONNECTING →
  match r with
  | inr _ =>
      state (self m') = OPEN ∧ accepted_response key (self m) (inbound (net m))
  | inl _ => state (self m') = CONNECTING
  end.
Proof.
  intros H Hs. rewrite validate_run in H. unfold accepted_response.
  destruct (inbound (net m)) as [e|[status_code headers]];
    [by injection H as <- <-|].
  destruct (bool_decide (status_code ≠ 101)) eqn:Hstatus;
    [by injection H as <- <-|].
  apply bool_decide_eq_false in Hstatus. apply dec_stable in Hstatus as ->.
  destruct (check_response _ key) as [e|[]] eqn:Hcheck;
    [by injection H as <- <-|].
  unfold bind at 1 in H. rewrite negotiate_extensions_run in H.
  assert (∀ m1,
    state (self m1) = CONNECTING →
    available_subprotocols (self m1) = available_subprotocols (self m) →
    (negotiate_subprotocol headers ;; open_connection) m1 = (r, m') →
    match r with
    | inr _ =>
        state (self m') = OPEN ∧
        ∀ w, Message_get headers "Sec-WebSocket-Protocol" = Some w →
          ∃ offers, available_subprotocols (self m) = Some offers ∧ w ∈ offers
    | inl _ => state (self m') = CONNECTING
    end) as Hrest.
  { intros m1 Hs1 Hav H1. unfold bind at 1 in H1.
    rewrite negotiate_subprotocol_run, Hav in H1.
    destruct (Message_get headers "Sec-WebSocket-Protocol") as [w|].
    - destruct (not_in w _) as [e|[]] eqn:Hin; [by injection H1 as <- <-..|].
      apply not_in_false in Hin.
      rewrite open_connection_run in H1. run. rewrite Hs1 in H1. cbn in H1.
      injection H1 as <- <-. split; [done|]. by intros ? [= <-].
    - rewrite open_connection_run, Hs1 in H1. cbn in H1.
      injection H1 as <- <-. by split. }
  destruct (Message_get headers "Sec-WebSocket-Extensions") as [v|] eqn:Hext.
  - cbn zeta in H.
    destruct (verify_extensions_loop _ _) as [e|[]] eqn:Hloop;
      [by injection H as <- <-|].
    apply verify_extensions_loop_checked in Hloop.
    apply Hrest in H; [|done..].
    destruct r as [e|[]]; [done|]. destruct H as [Hopen Hsub].
    split; [done|]. exists headers. rewrite Hext.
    split_and!; [done..| |done]. by intros ? [= <-].
  - apply Hrest in H; [|done..].
    destruct r as [e|[]]; [done|]. destruct H as [Hopen Hsub].
    split; [done|]. exists headers. rewrite Hext. by split_and!.
Qed.

(** Validation leaves the stored request alone. *)
Lemma validate_keeps_request key (m : machine) :
  raw_request_headers (self (validate key m).2) = raw_request_headers (self m).
Proof.
  rewrite validate_run.
  destruct (inbound (net m)) as [e|[status_code headers]]; [done|].
  destruct (bool_decide _); [done|].
  destruct (check_response _ key) as [e|[]]; [done|].
  unfold bind.
  rewrite negotiate_extensions_run.
  destruct (Message_get headers "Sec-WebSocket-Extensions") as [v|]; cbn zeta;
    [destruct (verify_extensions_loop _ _) as [e|[]]; [done|] |];
    rewrite negotiate_subprotocol_run;
    (destruct (Message_get headers "Sec-WebSocket-Protocol") as [w|];
     [destruct (not_in w _) as [e|[]]; [done..|] |]);
    rewrite open_connection_run; by destruct (bool_decide _).
Qed.

(** The request the handshake stores, when [extra_headers] is well
    formed; otherwise the handshake stops before it touches anything. *)
Lemma handshake_request wsuri origin ae asp eh (m : machine) :
  match extra_pairs eh with
  | inl e => handshake wsuri origin ae asp eh m = (inl e, m)
  | inr extras =>
      raw_request_headers (self (handshake wsuri origin ae asp eh m).2) =
      Some (request_header_list wsuri origin ae asp extras (random (net m)))
  end.
Proof.
  rewrite handshake_phases. destruct (extra_pairs eh) as [e|extras]; [done|].
  by rewrite validate_keeps_request.
Qed.

(** The request stored by a handshake on a fresh protocol object. *)
Lemma handshake_request_inv wsuri origin ae asp eh (m : machine) hs :
  raw_request_headers (self m) = None →
  raw_request_headers (self (handshake wsuri origin ae asp eh m).2) = Some hs →
  ∃ extras, extra_pairs eh = inr extras ∧
    hs = request_header_list wsuri origin ae asp extras (random (net m)).
Proof.
  intros Hnew Hhs. pose proof (handshake_request wsuri origin ae asp eh m) as H.
  destruct (extra_pairs eh) as [e|extras].
  - rewrite H in Hhs. simpl in Hhs. congruence.
  - exists extras. split; [done|]. congruence.
Qed.

(** Once the response passed the status and key checks, what is left is
    the negotiation. *)
Lemma handshake_validated wsuri origin ae asp eh (m : machine) extras headers :
  extra_pairs eh = inr extras →
  inbound (net m) = inr (101, headers) →
  check_response (λ k, default "" (Message_get headers k))
    (build_request (random (net m))).2 = inr tt →
  handshake wsuri origin ae asp eh m =
  (negotiate_extensions headers ;;
   negotiate_subprotocol headers ;;
   open_connection)
    (stored headers (awaited (sent wsuri
       (request_header_list wsuri origin ae asp extras (random (net m))) m))).
Proof.
  intros Hextra Hin Hcheck. rewrite handshake_phases, Hextra, validate_run.
  run. rewrite Hin. cbn. by rewrite Hcheck.
Qed.

(** ** The claims *)

(** The outcome of the handshake on a connection in state CONNECTING. *)
Lemma handshake_outcome wsuri origin ae asp eh (m : machine) r m' :
  state (self m) = CONNECTING →
  handshake wsuri origin ae asp eh m = (r, m') →
  match r with
  | inr _ =>
      state (self m') = OPEN ∧
      accepted_response (build_request (random (net m))).2 (self m)
        (inbound (net m))
  | inl _ => state (self m') = CONNECTING
  end.
Proof.
  intros Hs H. rewrite handshake_phases in H.
  destruct (extra_pairs eh) as [e|extras].
  { by injection H as <- <-. }
  by apply validate_open in H.
Qed.

(** C1. Started on a connection in state CONNECTING, the handshake ends in
    state OPEN exactly when it returns normally, and then every validation
    step succeeded: the status code is 101, [check_response] accepted the
    key, every token of a Sec-WebSocket-Extensions response header is among
    the offered extensions and a Sec-WebSocket-Protocol response header is
    among the offered subprotocols. On every path that raises, the state is
    still CONNECTING: it is never set to OPEN. *)
Theorem handshake_open_only_after_validation
    wsuri origin ae asp eh (m : machine) r m' :
  state (self m) = CONNECTING →
  handshake wsuri origin ae asp eh m = (r, m') →
  (state (self m') = OPEN ↔ r = inr tt) ∧
  (state (self m') = OPEN →
     accepted_response (build_request (random (net m))).2 (self m)
       (inbound (net m))) ∧
  (∀ e, r = inl e → state (self m') = CONNECTING).
Proof.
  intros Hs H. apply handshake_outcome in H; [|done].
  destruct r as [e|[]].
  - rewrite H. by split_and!.
  - destruct H as [-> Hacc]. by split_and!.
Qed.

(** C3. The first header of the request is Host. Its value is the host
    alone exactly when the port is the default of the scheme (443 when
    secure, 80 when not), and [host:port] otherwise. *)
Theorem host_header_omits_default_port
    wsuri origin ae asp eh (m : machine) hs :
  raw_request_headers (self m) = None →
  raw_request_headers (self (handshake wsuri origin ae asp eh m).2) = Some hs →
  ∃ v rest,
    hs = ("Host", v) :: rest ∧
    (v = host wsuri ↔ port wsuri = (if secure wsuri then 443 else 80)) ∧
    (port wsuri ≠ (if secure wsuri then 443 else 80) →
       v = host wsuri +:+ ":" +:+ PyStr.of_int (port wsuri)).
Proof.
  intros Hnew Hhs.
  apply handshake_request_inv in Hhs as (extras & _ & ->); [|done].
  unfold request_header_list, own_headers, host_value.
  eexists _, _. split; [reflexivity|].
  case_bool_decide as Hport.
  - by split.
  - split; [|done]. split; [|done].
    intros Heq. by apply append_cons_neq in Heq.
Qed.

(** The negotiation steps after the extensions leave them alone. *)
Lemma subprotocol_step_keeps_extensions headers (m : machine) :
  extensions (self ((negotiate_subprotocol headers ;; open_connection) m).2)
  = extensions (self m).
Proof.
  unfold bind. rewrite negotiate_subprotocol_run.
  destruct (Message_get headers "Sec-WebSocket-Protocol") as [w|];
    [destruct (not_in w _) as [e|[]]; [done..|] |];
    rewrite open_connection_run; by destruct (bool_decide _).
Qed.

(** The extension step goes through when every selected extension was
    offered, and touches nothing but [extensions]. *)
Lemma negotiate_extensions_pass headers (m : machine) :
  (∀ x, Message_get headers "Sec-WebSocket-Extensions" = Some x →
     ∃ exts, available_extensions (self m) = Some exts ∧
       Forall (λ t, t ∈ exts) (PyStr.strip <$> PyStr.split "," x)) →
  ∃ m1, negotiate_extensions headers m = (inr tt, m1) ∧
    net m1 = net m ∧ state (self m1) = state (self m) ∧
    available_subprotocols (self m1) = available_subprotocols (self m) ∧
    subprotocol (self m1) = subprotocol (self m).
Proof.
  intros Hext. rewrite negotiate_extensions_run.
  destruct (Message_get headers "Sec-WebSocket-Extensions") as [x|].
  - destruct (Hext x eq_refl) as (exts & -> & Hall). cbn zeta.
    apply verify_extensions_loop_ok in Hall as ->. by eexists.
  - by eexists.
Qed.

(** C8. When the response has a Sec-WebSocket-Extensions header, its value
    is split on commas and each field stripped of white space. If one of
    these tokens is not in the offered list, the handshake raises
    [InvalidHandshake] with the message "Unknown extension: " followed by
    such a token (the first one), [extensions] is not assigned and the
    state does not change; if all of them are in the list, [extensions]
    becomes exactly this list of tokens. *)
Theorem unknown_extension_fails
    wsuri origin ae asp eh (m : machine) extras headers v offers r m' :
  extra_pairs eh = inr extras →
  inbound (net m) = inr (101, headers) →
  check_response (λ k, default "" (Message_get headers k))
    (build_request (random (net m))).2 = inr tt →
  Message_get headers "Sec-WebSocket-Extensions" = Some v →
  available_extensions (self m) = Some offers →
  handshake wsuri origin ae asp eh m = (r, m') →
  (Exists (λ t, t ∉ offers) (PyStr.strip <$> PyStr.split "," v) →
     ∃ t, t ∈ (PyStr.strip <$> PyStr.split "," v) ∧ (t ∉ offers) ∧
       r = inl (InvalidHandshake ("Unknown extension: " +:+ t) None) ∧
       extensions (self m') = extensions (self m) ∧
       state (self m') = state (self m)) ∧
  (Forall (λ t, t ∈ offers) (PyStr.strip <$> PyStr.split "," v) →
     extensions (self m') = Some (PyStr.strip <$> PyStr.split "," v)).
Proof.
  intros Hextra Hin Hcheck Hget Hoffers H.
  rewrite (handshake_validated _ _ _ _ _ _ _ _ Hextra Hin Hcheck) in H.
  unfold bind at 1 in H. rewrite negotiate_extensions_run, Hget in H.
  cbn zeta in H. fields. rewrite Hoffers in H. split.
  - intros Hbad. apply find_unknown in Hbad as (t & Hfind & Hint & Hout).
    rewrite verify_extensions_loop_find, Hfind in H.
    injection H as <- <-. by exists t.
  - intros Hall. apply verify_extensions_loop_ok in Hall as Hloop.
    rewrite Hloop in H.
    apply (f_equal (λ out, extensions (self out.2))) in H.
    rewrite subprotocol_step_keeps_extensions in H. by symmetry.
Qed.

(** C10. The value of a Sec-WebSocket-Protocol response header is looked
    up in the offered list as it is, neither split nor stripped. When it
    is an element of the list the handshake succeeds and [subprotocol] is
    this value; when it is not, the handshake raises [InvalidHandshake]
    "Unknown subprotocol: " followed by the whole value. So a value with a
    comma fails against offers that are tokens without commas, whatever
    its comma-separated parts are. *)
Theorem subprotocol_is_one_offer
    wsuri origin ae asp eh (m : machine) extras headers v offers r m' :
  state (self m) = CONNECTING →
  extra_pairs eh = inr extras →
  inbound (net m) = inr (101, headers) →
  check_response (λ k, default "" (Message_get headers k))
    (build_request (random (net m))).2 = inr tt →
  (∀ x, Message_get headers "Sec-WebSocket-Extensions" = Some x →
     ∃ exts, available_extensions (self m) = Some exts ∧
       Forall (λ t, t ∈ exts) (PyStr.strip <$> PyStr.split "," x)) →
  Message_get headers "Sec-WebSocket-Protocol" = Some v →
  available_subprotocols (self m) = Some offers →
  handshake wsuri origin ae asp eh m = (r, m') →
  (v ∈ offers →
     r = inr tt ∧ subprotocol (self m') = Some v ∧ state (self m') = OPEN) ∧
  (v ∉ offers →
     r = inl (InvalidHandshake ("Unknown subprotocol: " +:+ v) None) ∧
     subprotocol (self m') = subprotocol (self m) ∧
     state (self m') = CONNECTING) ∧
  (PyStr.has_char "," v = true →
   Forall (λ o, PyStr.has_char "," o = false) offers →
     r = inl (InvalidHandshake ("Unknown subprotocol: " +:+ v) None)).
Proof.
  intros Hs Hextra Hin Hcheck Hext Hget Hoffers H.
  rewrite (handshake_validated _ _ _ _ _ _ _ _ Hextra Hin Hcheck) in H.
  unfold bind at 1 in H.
  destruct (negotiate_extensions_pass headers
              (stored headers (awaited (sent wsuri
                 (request_header_list wsuri origin ae asp extras
                    (random (net m))) m))))
    as (m1 & Hm1 & Hnet & Hstate & Havail & Hsub); [done|].
  rewrite Hm1 in H. unfold bind at 1 in H.
  rewrite negotiate_subprotocol_run, Hget, Havail in H. fields.
  rewrite Hoffers in H. cbn [not_in] in H.
  assert (v ∉ offers →
          r = inl (InvalidHandshake ("Unknown subprotocol: " +:+ v) None) ∧
          subprotocol (self m') = subprotocol (self m) ∧
          state (self m') = CONNECTING) as Hfail.
  { intros Hout. apply mem_false in Hout. rewrite Hout in H. cbn in H.
    injection H as <- <-. by rewrite Hsub, Hstate. }
  split_and!; [|done|].
  - intros Hmem. apply mem_true in Hmem. rewrite Hmem in H. cbn [negb] in H.
    rewrite open_connection_run in H. fields. rewrite Hstate in H. fields.
    rewrite Hs in H. cbn in H. by injection H as <- <-.
  - intros Hcomma Htokens. by apply Hfail, comma_not_offered.
Qed.

(** ** [connect] *)

(** Validation reads the response and does nothing else on the network. *)
Lemma validate_net key (m : machine) :
  net (validate key m).2 = net (awaited m).
Proof.
  rewrite validate_run.
  destruct (inbound (net m)) as [e|[status_code headers]]; [done|].
  destruct (bool_decide _); [done|].
  destruct (check_response _ key) as [e|[]]; [done|].
  unfold bind.
  rewrite negotiate_extensions_run.
  destruct (Message_get headers "Sec-WebSocket-Extensions") as [v|]; cbn zeta;
    [destruct (verify_extensions_loop _ _) as [e|[]]; [done|] |];
    rewrite negotiate_subprotocol_run;
    (destruct (Message_get headers "Sec-WebSocket-Protocol") as [w|];
     [destruct (not_in w _) as [e|[]]; [done..|] |]);
    rewrite open_connection_run; by destruct (bool_decide _).
Qed.

(** The handshake only adds to the log and leaves the transport as it is. *)
Lemma handshake_net wsuri origin ae asp eh (m : machine) :
  ∃ later,
    log (net (handshake wsuri origin ae asp eh m).2) = (log (net m) ++ later)%list ∧
    transport_open (net (handshake wsuri origin ae asp eh m).2)
    = transport_open (net m).
Proof.
  rewrite handshake_phases. destruct (extra_pairs eh) as [e|extras].
  - exists []. by rewrite app_nil_r.
  - rewrite validate_net. fields. eexists. by rewrite <- app_assoc.
Qed.

Lemma connect_run uri kwds origin exts subs eh (w : world) :
  connect uri kwds origin exts subs eh w =
  match parse_uri uri with
  | inl e => (inl e, w)
  | inr wsuri =>
      if secure wsuri
      then establish wsuri (setdefault "ssl" (KwBool true) kwds)
             origin exts subs eh w
      else if bool_decide ("ssl" ∈ dom kwds)
      then (inl (ValueError
                   ("connect() received a SSL context for a ws:// URI. "
                    +:+ "Use a wss:// URI to enable TLS.")), w)
      else establish wsuri kwds origin exts subs eh w
  end.
Proof.
  unfold connect, establish.
  unfold bind at 1, lift at 1.
  destruct (parse_uri uri) as [e|wsuri]; [done|].
  unfold bind at 1.
  assert (∀ kwds',
    (protocol <- create_connection (λ _, new_protocol origin exts subs eh)
                   (host wsuri) (port wsuri) kwds' ;;
     r <- on_object protocol
            (try_except (handshake wsuri origin exts subs eh)
               (λ exc, close_connection true ;; raise exc)) ;;
     ret r.2) w = establish wsuri kwds' origin exts subs eh w) as Hrest.
  { intros kwds'. unfold establish, bind at 1, create_connection.
    destruct (connect_error w) as [e|]; [done|].
    unfold bind, on_object, try_except, ret.
    destruct (handshake _ _ _ _ _ _) as [[e|[]] m']; [|done].
    destruct (is_Exception e); [|done].
    run. done. }
  destruct (secure wsuri).
  - unfold ret at 1. apply Hrest.
  - destruct (bool_decide _); [done|]. unfold ret at 1. apply Hrest.
Qed.

(** Once the transport is open, a failing [connect] is a failing
    handshake, followed by the forced close when the exception is an
    instance of [Exception] and by nothing when it is not. *)
Lemma establish_failure wsuri kwds origin exts subs eh (w : world) e w' :
  connect_error w = None →
  establish wsuri kwds origin exts subs eh w = (inl e, w') →
  ∃ m1,
    handshake wsuri origin exts subs eh
      {| self := new_protocol origin exts subs eh;
         net := record_event (EvConnect (host wsuri) (port wsuri) kwds) true w |}
    = (inl e, m1) ∧
    if is_Exception e
    then w' = record_event EvAbort false (net m1)
    else w' = net m1 ∧ transport_open w' = true.
Proof.
  unfold establish. intros ->.
  pose proof (handshake_net wsuri origin exts subs eh
    {| self := new_protocol origin exts subs eh;
       net := record_event (EvConnect (host wsuri) (port wsuri) kwds) true w |})
    as (later & _ & Hopen).
  destruct (handshake _ _ _ _ _ _) as [[e'|[]] m1]; [|done].
  destruct (is_Exception e') eqn:He'; intros [= <- <-]; exists m1;
    rewrite He'; by split.
Qed.

Lemma establish_closed wsuri kwds origin exts subs eh (w : world) e w' :
  transport_open w = false →
  establish wsuri kwds origin exts subs eh w = (inl e, w') →
  is_Exception e = true →
  transport_open w' = false.
Proof.
  unfold establish. intros Hclosed. destruct (connect_error w) as [e'|].
  - by intros [= <- <-].
  - destruct (handshake _ _ _ _ _ _) as [[e'|[]] m1]; [|done].
    destruct (is_Exception e') eqn:He'; intros [= <- <-]; [done|congruence].
Qed.

Lemma establish_open wsuri kwds origin exts subs eh (w : world) p w' :
  establish wsuri kwds origin exts subs eh w = (inr p, w') →
  state p = OPEN ∧ transport_open w' = true.
Proof.
  unfold establish. destruct (connect_error w) as [e'|]; [done|].
  destruct (handshake _ _ _ _ _ _) as [[e'|[]] m1] eqn:H;
    [by destruct (is_Exception e')|].
  intros [= <- <-].
  pose proof (handshake_net wsuri origin exts subs eh
    {| self := new_protocol origin exts subs eh;
       net := record_event (EvConnect (host wsuri) (port wsuri) kwds) true w |})
    as (later & _ & Hopen).
  rewrite H in Hopen. split; [|done].
  by apply handshake_outcome in H as [Hstate _].
Qed.

(** C2, as the code has it. [connect] on a world whose transport is not
    open. If it returns, the protocol object is OPEN. If it raises, no
    protocol object is returned, and when the transport had been opened
    (the URI parsed, the TLS options were accepted, [create_connection]
    succeeded) the exception is the one the handshake raised, unchanged.
    When this exception is an instance of [Exception], the last thing done
    was the forced close and the transport is not open afterwards. When it
    is not ([KeyboardInterrupt], [GeneratorExit], a cancellation from
    Python 3.8 on), [except Exception] does not catch it: nothing is done
    after the handshake and the transport is left open. *)
Theorem connect_failure_closes_transport
    uri kwds origin exts subs eh (w : world) :
  transport_open w = false →
  match connect uri kwds origin exts subs eh w with
  | (inr p, w') => state p = OPEN ∧ transport_open w' = true
  | (inl e, w') =>
      (is_Exception e = true → transport_open w' = false) ∧
      ∀ wsuri,
        parse_uri uri = inr wsuri →
        (secure wsuri = false → "ssl" ∉ dom kwds) →
        connect_error w = None →
        ∃ m1,
          handshake wsuri origin exts subs eh
            {| self := new_protocol origin exts subs eh;
               net := record_event
                        (EvConnect (host wsuri) (port wsuri)
                           (if secure wsuri
                            then setdefault "ssl" (KwBool true) kwds
                            else kwds)) true w |}
          = (inl e, m1) ∧
          if is_Exception e
          then w' = record_event EvAbort false (net m1)
          else w' = net m1 ∧ transport_open w' = true
  end.
Proof.
  intros Hclosed. rewrite connect_run.
  destruct (parse_uri uri) as [e|wsuri].
  { split; [done|]. by intros. }
  destruct (secure wsuri) eqn:Hsecure.
  - destruct (establish _ _ _ _ _ _ _) as [[e|p] w'] eqn:H.
    + split; [by eapply establish_closed|].
      intros ? [= <-] _ Hconn. rewrite Hsecure.
      by apply establish_failure.
    + by eapply establish_open.
  - case_bool_decide as Hssl.
    { split; [done|]. intros ? [= <-] Hno. rewrite Hsecure in Hno.
      by destruct Hno. }
    destruct (establish _ _ _ _ _ _ _) as [[e|p] w'] eqn:H.
    + split; [by eapply establish_closed|].
      intros ? [= <-] _ Hconn. rewrite Hsecure.
      by apply establish_failure.
    + by eapply establish_open.
Qed.

(** C7. With an [ssl] option for a URI that is not secure, [connect]
    raises [ValueError] (a configuration error) and the world is untouched:
    nothing happened on the network. With a secure URI and no [ssl] option,
    the next thing that happens on the network is the opening of the
    transport with [ssl] set to [True]. *)
Theorem tls_policy uri kwds origin exts subs eh (w : world) wsuri :
  parse_uri uri = inr wsuri →
  (secure wsuri = false → "ssl" ∈ dom kwds →
     ∃ msg,
       connect uri kwds origin exts subs eh w = (inl (ValueError msg), w) ∧
       kind_of (ValueError msg) = ConfigurationError) ∧
  (secure wsuri = true → kwds !! "ssl" = None →
     ∃ later,
       log (connect uri kwds origin exts subs eh w).2 =
       (log w ++ EvConnect (host wsuri) (port wsuri)
                   (<["ssl" := KwBool true]> kwds) :: later)%list).
Proof.
  intros Hparse. rewrite connect_run, Hparse. split.
  - intros -> Hssl. rewrite bool_decide_eq_true_2; [|done]. by eexists.
  - intros -> Hssl. unfold establish, setdefault. rewrite Hssl.
    destruct (connect_error w) as [e|].
    + exists []. done.
    + pose proof (handshake_net wsuri origin exts subs eh
        {| self := new_protocol origin exts subs eh;
           net := record_event (EvConnect (host wsuri) (port wsuri)
                                  (<["ssl" := KwBool true]> kwds)) true w |})
        as (later & Hlog & _).
      destruct (handshake _ _ _ _ _ _) as [[e|[]] m1]; fields.
      * destruct (is_Exception e); fields.
        -- exists (later ++ [EvAbort])%list. rewrite Hlog.
           by rewrite <- !app_assoc.
        -- exists later. rewrite Hlog. by rewrite <- !app_assoc.
      * exists later. rewrite Hlog. by rewrite <- !app_assoc.
Qed.

(** C9. The transport is open, the request was sent and the response
    passed the status and key checks. If the response selects extensions
    while no list of extensions was given ([None]), or, the extensions
    being in order, selects a subprotocol while no list of subprotocols was
    given, then [connect] raises the [TypeError] of the membership test
    against [None], which is not a handshake error; the transport is
    closed by force all the same. *)
Theorem missing_offers_raise_TypeError
    uri kwds origin exts subs eh (w : world) wsuri extras headers :
  parse_uri uri = inr wsuri →
  (secure wsuri = false → "ssl" ∉ dom kwds) →
  connect_error w = None →
  extra_pairs eh = inr extras →
  inbound w = inr (101, headers) →
  check_response (λ k, default "" (Message_get headers k))
    (build_request (random w)).2 = inr tt →
  (is_Some (Message_get headers "Sec-WebSocket-Extensions") ∧ exts = None)
  ∨ ((∀ x, Message_get headers "Sec-WebSocket-Extensions" = Some x →
        ∃ offers, exts = Some offers ∧
          Forall (λ t, t ∈ offers) (PyStr.strip <$> PyStr.split "," x)) ∧
     is_Some (Message_get headers "Sec-WebSocket-Protocol") ∧ subs = None) →
  ∃ e w',
    connect uri kwds origin exts subs eh w = (inl e, w') ∧
    e = TypeError "argument of type 'NoneType' is not iterable" ∧
    is_InvalidHandshake e = false ∧
    kind_of e ≠ HandshakeError ∧
    transport_open w' = false ∧
    last (log w') = Some EvAbort.
Proof.
  intros Hparse Hssl Hconn Hextra Hin Hcheck Hcase.
  assert (∀ kwds', ∃ w',
    establish wsuri kwds' origin exts subs eh w =
      (inl (TypeError "argument of type 'NoneType' is not iterable"), w') ∧
    transport_open w' = false ∧ last (log w') = Some EvAbort) as Hest.
  { intros kwds'. unfold establish. rewrite Hconn.
    rewrite (handshake_validated _ _ _ _ _ _ extras headers); [|done..].
    unfold bind at 1.
    destruct Hcase as [[[v Hv] ->] | (Hexts & [v Hv] & ->)].
    - rewrite negotiate_extensions_run, Hv. cbn zeta. fields.
      destruct (split_cons "," v) as (t & ts & ->). cbn.
      eexists. split_and!; [done..|]. fields. by rewrite last_snoc.
    - match goal with
      | |- context [negotiate_extensions headers ?m0] =>
          destruct (negotiate_extensions_pass headers m0)
            as (m1 & -> & Hnet & Hstate & Havail & Hsub); [done|]
      end.
      unfold bind at 1. rewrite negotiate_subprotocol_run, Hv, Havail.
      cbn. eexists. split_and!; [done..|]. fields. by rewrite last_snoc. }
  rewrite connect_run, Hparse.
  destruct (secure wsuri) eqn:Hsecure.
  - destruct (Hest (setdefault "ssl" (KwBool true) kwds)) as (w' & -> & ? & ?).
    by eexists _, _.
  - rewrite bool_decide_eq_false_2; [|by apply Hssl].
    destruct (Hest kwds) as (w' & -> & ? & ?). by eexists _, _.
Qed.

(** ** The request headers *)

Lemma extra_pairs_mapping (mp : list (string * string)) :
  extra_pairs (Some (ExMapping mp)) = inr mp.
Proof. unfold extra_pairs, items. simpl. apply pair_items_unpack. Qed.

Lemma extra_pairs_sequence (pairs : list header) :
  extra_pairs (Some (ExSeq (pair_item <$> pairs))) = inr pairs.
Proof. unfold extra_pairs. simpl. apply pair_items_unpack. Qed.

(** The headers the client sets from its own arguments have four names. *)
Lemma occurrences_own_headers name wsuri origin ae asp :
  occurrences name (own_headers wsuri origin ae asp) =
  ((if decide (name = "Host") then 1 else 0)
   + (if decide (name = "Origin") then if origin is Some _ then 1 else 0 else 0)
   + (if decide (name = "Sec-WebSocket-Extensions")
      then if ae is Some _ then 1 else 0 else 0)
   + (if decide (name = "Sec-WebSocket-Protocol")
      then if asp is Some _ then 1 else 0 else 0))%nat.
Proof.
  unfold own_headers, offer_header.
  destruct origin as [o|], ae as [l1|], asp as [l2|]; simpl;
    repeat rewrite occurrences_cons; unfold occurrences; simpl;
    repeat case_decide; simplify_eq; reflexivity.
Qed.

Local Set Warnings "-clear-no-such-hyp".

(** C4, as the code has it. The client sets a Sec-WebSocket-Extensions
    (or Sec-WebSocket-Protocol) header from the offers exactly when the
    offer list is given, that is when it is not [None], and it sets it
    once; its value is the tokens joined by ", " in the order of the list.
    An empty list that is given yields the header with an empty value. A
    header of this name that is in the request and was not set from the
    offers is one of [extra_headers] or of [build_request]: they are sent
    as well, whether offers are given or not. *)
Theorem offer_headers_emitted_when_provided
    wsuri origin ae asp eh (m : machine) hs :
  raw_request_headers (self m) = None →
  raw_request_headers (self (handshake wsuri origin ae asp eh m).2) = Some hs →
  ∃ extras,
    extra_pairs eh = inr extras ∧
    (∀ v, ("Sec-WebSocket-Extensions", v) ∈ hs ↔
          (∃ l, ae = Some l ∧ v = PyStr.join ", " l)
          ∨ ("Sec-WebSocket-Extensions", v)
            ∈ (extras ++ (build_request (random (net m))).1)%list) ∧
    (∀ v, ("Sec-WebSocket-Protocol", v) ∈ hs ↔
          (∃ l, asp = Some l ∧ v = PyStr.join ", " l)
          ∨ ("Sec-WebSocket-Protocol", v)
            ∈ (extras ++ (build_request (random (net m))).1)%list) ∧
    occurrences "Sec-WebSocket-Extensions" hs =
      ((if ae is Some _ then 1 else 0)
       + occurrences "Sec-WebSocket-Extensions"
           (extras ++ (build_request (random (net m))).1))%nat ∧
    occurrences "Sec-WebSocket-Protocol" hs =
      ((if asp is Some _ then 1 else 0)
       + occurrences "Sec-WebSocket-Protocol"
           (extras ++ (build_request (random (net m))).1))%nat.
Proof.
  clear parse_uri. intros Hnew Hhs.
  apply handshake_request_inv in Hhs as (extras & Hextra & ->); [|done].
  exists extras. split; [done|].
  unfold request_header_list. split_and!.
  - intros v. unfold own_headers, offer_header.
    destruct origin as [o|], ae as [l1|], asp as [l2|];
      repeat (rewrite elem_of_app || rewrite elem_of_cons
              || rewrite elem_of_nil);
      naive_solver.
  - intros v. unfold own_headers, offer_header.
    destruct origin as [o|], ae as [l1|], asp as [l2|];
      repeat (rewrite elem_of_app || rewrite elem_of_cons
              || rewrite elem_of_nil);
      naive_solver.
  - rewrite !occurrences_app, occurrences_own_headers, occurrences_cons.
    by destruct ae.
  - rewrite !occurrences_app, occurrences_own_headers, occurrences_cons.
    by destruct asp.
Qed.

(** C5, as the code has it. The pairs of [extra_headers] are appended in
    one block, in their order, to the headers set so far: the items of a
    mapping in its iteration order, the pairs of a sequence in theirs,
    repeated names included. Nothing is replaced or left out, so a name
    occurs in the request as often as in [extra_headers] and in the
    request built without [extra_headers] together. For a mapping with
    distinct keys, each key goes into the request once with its value: it
    occurs once more than in the request built without [extra_headers]
    (where a name the client sets itself, such as Host or User-Agent,
    occurs already). *)
Theorem extra_headers_emitted wsuri origin ae asp eh (m : machine) hs :
  raw_request_headers (self m) = None →
  raw_request_headers (self (handshake wsuri origin ae asp eh m).2) = Some hs →
  ∃ hs0,
    raw_request_headers (self (handshake wsuri origin ae asp None m).2)
    = Some hs0 ∧
    (∀ mp k v, eh = Some (ExMapping mp) → NoDup mp.*1 → (k, v) ∈ mp →
       (k, v) ∈ hs ∧ occurrences k hs = S (occurrences k hs0)) ∧
    (∀ pairs,
       eh = Some (ExSeq (pair_item <$> pairs)) ∨ eh = Some (ExMapping pairs) →
       (∃ before after,
          hs = (before ++ pairs ++ after)%list ∧ hs0 = (before ++ after)%list) ∧
       ∀ k, occurrences k hs = (occurrences k pairs + occurrences k hs0)%nat).
Proof.
  intros Hnew Hhs.
  apply handshake_request_inv in Hhs as (extras & Hextra & ->); [|done].
  pose proof (handshake_request wsuri origin ae asp None m) as H0.
  simpl in H0. eexists. split; [exact H0|].
  unfold request_header_list. split.
  - intros mp k v -> Hnodup Hin. rewrite extra_pairs_mapping in Hextra.
    injection Hextra as <-.
    split.
    + rewrite !elem_of_app. auto.
    + rewrite !occurrences_app.
      rewrite (occurrences_NoDup k v mp); [|done..].
      simpl. lia.
  - intros pairs Heh.
    assert (extras = pairs) as ->.
    { destruct Heh as [-> | ->].
      - rewrite extra_pairs_sequence in Hextra. by injection Hextra.
      - rewrite extra_pairs_mapping in Hextra. by injection Hextra. }
    split; [by eexists _, _|].
    intros k. rewrite !occurrences_app. simpl. lia.
Qed.

(** Every element of the shape [pair_like] unpacks. *)
Lemma all_pair_like (its : list pyitem) :
  forallb pair_like its = true →
  ∃ extras, set_extra_headers its [] = inr extras.
Proof.
  induction its as [|it its IH]; simpl; [by eexists|].
  intros [Hit Hrest]%andb_true_iff. destruct (IH Hrest) as [extras Hextras].
  assert (∃ kv, unpack_pair it = inr kv) as [[name value] ->].
  { destruct it as [| z | s | l]; try done.
    - destruct s as [|a [|b [|c s]]]; try done. by eexists.
    - destruct l as [|a [|b [|c l]]]; try done. by eexists. }
  rewrite set_extra_headers_from, Hextras. by eexists.
Qed.

(** An iterable of (name, value) pairs is one of the iterables the loop
    takes. *)
Lemma name_value_pairs_unpack (x : pyextra) :
  iterable_of_name_value_pairs x = true → iterable_of_pairs x = true.
Proof.
  destruct x as [mp | its | s | z]; try done.
  unfold iterable_of_pairs. simpl.
  induction its as [|it its IH]; simpl; [done|].
  intros [Hit Hrest]%andb_true_iff. rewrite IH by done.
  by destruct it as [| z | s | [|a [|b [|c l]]]].
Qed.

(** C6, as the code has it. The [for] loop takes whatever it can iterate
    over and unpack into two. When [extra_headers] is not a mapping and is
    not iterable, or one of its elements has not exactly two items, the
    handshake raises while it builds the request, before it touches the
    protocol object or the transport; the exception is the [TypeError] or
    the [ValueError] of the loop and nothing else. When every element has
    two items, the handshake does not raise there, whatever the elements
    are: each is unpacked into the name and the value of a header of the
    request. The iterables of (name, value) pairs are among them, and are
    not the only ones. *)
Theorem malformed_extra_headers_raise wsuri origin ae asp x (m : machine) :
  is_mapping x = false →
  (iterable_of_name_value_pairs x = true → iterable_of_pairs x = true) ∧
  (iterable_of_pairs x = false →
     ∃ e,
       handshake wsuri origin ae asp (Some x) m = (inl e, m) ∧
       is_TypeError e || is_ValueError e = true) ∧
  (iterable_of_pairs x = true →
     ∃ its extras,
       iterate x = inr its ∧
       Forall2 (λ it kv, unpack_pair it = inr kv) its extras ∧
       raw_request_headers
         (self (handshake wsuri origin ae asp (Some x) m).2)
       = Some (request_header_list wsuri origin ae asp extras
                 (random (net m)))).
Proof.
  intros Hmap.
  pose proof (handshake_request wsuri origin ae asp (Some x) m) as H.
  split_and!.
  - apply name_value_pairs_unpack.
  - intros Hpairs.
    assert (∃ e, extra_pairs (Some x) = inl e ∧
                 is_TypeError e || is_ValueError e = true) as (e & He & Hkind).
    { unfold extra_pairs, iterable_of_pairs in *.
      destruct x as [mp | its | s | z]; [done| | |by eexists].
      - simpl in *. apply not_all_pair_like in Hpairs as [e He].
        exists e. split; [done|].
        apply set_extra_headers_err in He as (it & _ & He).
        by eapply unpack_pair_error_kind.
      - simpl in *. apply not_all_pair_like in Hpairs as [e He].
        exists e. split; [done|].
        apply set_extra_headers_err in He as (it & _ & He).
        by eapply unpack_pair_error_kind. }
    rewrite He in H. by exists e.
  - intros Hpairs. unfold iterable_of_pairs in Hpairs.
    assert (∃ its, iterate x = inr its ∧ forallb pair_like its = true)
      as (its & Hits & Hall).
    { destruct (iterate x) as [e|its]; [done|]. by exists its. }
    apply all_pair_like in Hall as [extras Hextras].
    assert (extra_pairs (Some x) = inr extras) as Hextra.
    { unfold extra_pairs. destruct x as [mp | l | s | z]; [done|..];
        by rewrite Hits. }
    rewrite Hextra in H. exists its, extras. split_and!; [done| |done].
    by apply set_extra_headers_ok.
Qed.

End ClientProofs.

(** ** Runs of the sample client *)

Lemma handshake_open_only_after_validation_witness :
  state (self (Sample.handshake Sample.example_com None None None None
                 Sample.plain).2) = OPEN ↔
  (Sample.handshake Sample.example_com None None None None Sample.plain).1
  = inr tt.
Proof.
  apply (handshake_open_only_after_validation Sample.USER_AGENT
           Sample.build_request Sample.check_response
           Sample.example_com None None None None Sample.plain).
  - reflexivity.
  - vm_compute. reflexivity.
Defined.

Lemma host_header_omits_default_port_witness :
  ∃ v rest,
    Sample.plain_headers "localhost:8765" = ("Host", v) :: rest ∧
    (v = host Sample.localhost_8765 ↔
       port Sample.localhost_8765
       = (if secure Sample.localhost_8765 then 443 else 80)) ∧
    (port Sample.localhost_8765
     ≠ (if secure Sample.localhost_8765 then 443 else 80) →
       v = host Sample.localhost_8765 +:+ ":"
           +:+ PyStr.of_int (port Sample.localhost_8765)).
Proof.
  apply (host_header_omits_default_port Sample.USER_AGENT
           Sample.build_request Sample.check_response
           Sample.localhost_8765 None None None None Sample.plain).
  - reflexivity.
  - vm_compute. reflexivity.
Defined.

Lemma unknown_extension_fails_witness :
  (Sample.handshake Sample.localhost_8765 None (Some ["permessage-deflate"])
     None None Sample.deflate_offered).1
  = inl (InvalidHandshake "Unknown extension: foo" None).
Proof.
  destruct (unknown_extension_fails Sample.USER_AGENT Sample.build_request
              Sample.check_response
              Sample.localhost_8765 None (Some ["permessage-deflate"]) None None
              Sample.deflate_offered [] Sample.selects_foo "foo"
              ["permessage-deflate"]
              (Sample.handshake Sample.localhost_8765 None
                 (Some ["permessage-deflate"]) None None
                 Sample.deflate_offered).1
              (Sample.handshake Sample.localhost_8765 None
                 (Some ["permessage-deflate"]) None None
                 Sample.deflate_offered).2) as [Hfail _].
  - reflexivity.
  - reflexivity.
  - vm_compute. reflexivity.
  - vm_compute. reflexivity.
  - reflexivity.
  - vm_compute. reflexivity.
  - destruct Hfail as (t & Ht & _ & Hr & _).
    + apply Exists_cons_hd. vm_compute. intros H.
      apply list_elem_of_singleton in H. discriminate H.
    + vm_compute in Ht. apply list_elem_of_singleton in Ht. subst t. exact Hr.
Defined.

Lemma subprotocol_is_one_offer_witness :
  (Sample.handshake Sample.localhost_8765 None None
     (Some ["chat"; "superchat"]) None Sample.chats_offered).1
  = inl (InvalidHandshake "Unknown subprotocol: chat, superchat" None).
Proof.
  destruct (subprotocol_is_one_offer Sample.USER_AGENT Sample.build_request
              Sample.check_response
              Sample.localhost_8765 None None (Some ["chat"; "superchat"]) None
              Sample.chats_offered [] Sample.lists_both "chat, superchat"
              ["chat"; "superchat"]
              (Sample.handshake Sample.localhost_8765 None None
                 (Some ["chat"; "superchat"]) None Sample.chats_offered).1
              (Sample.handshake Sample.localhost_8765 None None
                 (Some ["chat"; "superchat"]) None Sample.chats_offered).2)
    as (_ & _ & Hcomma).
  - reflexivity.
  - reflexivity.
  - reflexivity.
  - vm_compute. reflexivity.
  - intros x Hx. vm_compute in Hx. discriminate Hx.
  - vm_compute. reflexivity.
  - reflexivity.
  - vm_compute. reflexivity.
  - apply Hcomma; [reflexivity|]. by repeat constructor.
Defined.

Lemma connect_failure_closes_transport_witness :
  transport_open
    (Sample.connect "ws://example.com/chat" ∅ None None None None
       (Sample.peer 7 200 [])).2 = false.
Proof.
  generalize (connect_failure_closes_transport Sample.USER_AGENT
                Sample.build_request Sample.check_response Sample.parse_uri
                "ws://example.com/chat" ∅ None None None None
                (Sample.peer 7 200 []) eq_refl).
  unfold Sample.connect.
  destruct (connect _ _ _ _ _ _ _ _ _ _ _) as [[e|p] w'] eqn:E.
  - intros [Hclosed _]. apply Hclosed.
    vm_compute in E. injection E as <- _. reflexivity.
  - vm_compute in E. discriminate E.
Defined.

(** C2, at a handshake that is interrupted while it waits for the
    response: [connect] raises and the transport is open afterwards. *)
Lemma interrupted_handshake_leaves_transport_open :
  ¬ (∀ e w',
       Sample.connect "ws://example.com/chat" ∅ None None None None
         {| log := []; transport_open := false; random := 7;
            connect_error := None;
            inbound := inl (BaseException "KeyboardInterrupt" "") |}
       = (inl e, w') →
       transport_open w' = false).
Proof.
  intros H.
  destruct (Sample.connect _ _ _ _ _ _ _) as [r w'] eqn:E.
  vm_compute in E. injection E as <- <-.
  specialize (H _ _ eq_refl). discriminate H.
Qed.

Lemma tls_policy_witness :
  ∃ msg,
    Sample.connect "ws://example.com/chat" {["ssl" := KwObject "SSLContext"]}
      None None None None (Sample.accepting 7 [])
    = (inl (ValueError msg), Sample.accepting 7 []).
Proof.
  destruct (tls_policy Sample.USER_AGENT Sample.build_request
              Sample.check_response Sample.parse_uri
              "ws://example.com/chat" {["ssl" := KwObject "SSLContext"]}
              None None None None (Sample.accepting 7 [])
              Sample.example_com eq_refl) as [Hvalue _].
  destruct Hvalue as (msg & Hraise & _).
  - reflexivity.
  - apply elem_of_dom. exists (KwObject "SSLContext").
    apply lookup_singleton_eq.
  - exists msg. exact Hraise.
Defined.

Lemma missing_offers_raise_TypeError_witness :
  ∃ e w',
    Sample.connect "ws://localhost:8765/" ∅ None None None None
      (Sample.peer 7 101 Sample.selects_foo) = (inl e, w') ∧
    e = TypeError "argument of type 'NoneType' is not iterable" ∧
    is_InvalidHandshake e = false ∧
    kind_of e ≠ HandshakeError ∧
    transport_open w' = false ∧
    last (log w') = Some EvAbort.
Proof.
  apply (missing_offers_raise_TypeError Sample.USER_AGENT Sample.build_request
           Sample.check_response Sample.parse_uri
           "ws://localhost:8765/" ∅ None None None None
           (Sample.peer 7 101 Sample.selects_foo)
           Sample.localhost_8765 [] Sample.selects_foo).
  - reflexivity.
  - intros _ Hssl. apply elem_of_dom in Hssl as [x Hx].
    rewrite lookup_empty in Hx. discriminate Hx.
  - reflexivity.
  - reflexivity.
  - reflexivity.
  - vm_compute. reflexivity.
  - left. split; [|reflexivity]. exists "foo". vm_compute. reflexivity.
Defined.

Lemma malformed_extra_headers_raise_witness :
  ∃ e,
    Sample.handshake Sample.example_com None None None
      (Some (ExSeq [ItTuple ["X-A"; "1"]; ItStr "abc"])) Sample.plain
    = (inl e, Sample.plain) ∧
    is_TypeError e || is_ValueError e = true.
Proof.
  destruct (malformed_extra_headers_raise Sample.USER_AGENT
              Sample.build_request Sample.check_response
              Sample.example_com None None None
              (ExSeq [ItTuple ["X-A"; "1"]; ItStr "abc"]) Sample.plain)
    as (_ & Hraises & _).
  - reflexivity.
  - apply Hraises. reflexivity.
Defined.

(** C6, at the list ['ab']: it is neither a mapping nor an iterable of
    (name, value) pairs, and the handshake does not fail on it; the string
    is unpacked into its two characters and the request has the header
    [a: b]. *)
Lemma two_character_string_is_a_header :
  ¬ (is_mapping (ExSeq [ItStr "ab"]) = false →
     iterable_of_name_value_pairs (ExSeq [ItStr "ab"]) = false →
     ∃ e,
       (Sample.handshake Sample.example_com None None None
          (Some (ExSeq [ItStr "ab"])) Sample.plain).1 = inl e).
Proof.
  intros H. destruct H as [e He]; [reflexivity..|].
  vm_compute in He. discriminate He.
Qed.

Lemma extra_headers_emitted_witness :
  ∃ before after,
    [("Host", "example.com"); ("X-A", "1"); ("X-A", "2");
     ("User-Agent", Sample.USER_AGENT);
     ("Upgrade", "WebSocket"); ("Connection", "Upgrade");
     ("Sec-WebSocket-Key", "key-7"); ("Sec-WebSocket-Version", "13")]
    = (before ++ [("X-A", "1"); ("X-A", "2")] ++ after)%list.
Proof.
  destruct (extra_headers_emitted Sample.USER_AGENT Sample.build_request
              Sample.check_response
              Sample.example_com None None None
              (Some (ExSeq (pair_item <$> [("X-A", "1"); ("X-A", "2")])))
              Sample.plain
              [("Host", "example.com"); ("X-A", "1"); ("X-A", "2");
               ("User-Agent", Sample.USER_AGENT);
               ("Upgrade", "WebSocket"); ("Connection", "Upgrade");
               ("Sec-WebSocket-Key", "key-7"); ("Sec-WebSocket-Version", "13")])
    as (hs0 & _ & _ & Hseq).
  - reflexivity.
  - vm_compute. reflexivity.
  - destruct (Hseq [("X-A", "1"); ("X-A", "2")] (or_introl eq_refl))
      as ((before & after & Hhs & _) & _).
    exists before, after. exact Hhs.
Defined.

Lemma offer_headers_emitted_when_provided_witness :
  ("Sec-WebSocket-Extensions", "")
  ∈ [("Host", "example.com"); ("Sec-WebSocket-Extensions", "");
     ("Sec-WebSocket-Protocol", "chat, superchat");
     ("User-Agent", Sample.USER_AGENT);
     ("Upgrade", "WebSocket"); ("Connection", "Upgrade");
     ("Sec-WebSocket-Key", "key-7"); ("Sec-WebSocket-Version", "13")].
Proof.
  destruct (offer_headers_emitted_when_provided Sample.USER_AGENT
              Sample.build_request Sample.check_response
              Sample.example_com None (Some []) (Some ["chat"; "superchat"])
              None Sample.plain
              [("Host", "example.com"); ("Sec-WebSocket-Extensions", "");
               ("Sec-WebSocket-Protocol", "chat, superchat");
               ("User-Agent", Sample.USER_AGENT);
               ("Upgrade", "WebSocket"); ("Connection", "Upgrade");
               ("Sec-WebSocket-Key", "key-7"); ("Sec-WebSocket-Version", "13")])
    as (extras & _ & Hext & _).
  - reflexivity.
  - vm_compute. reflexivity.
  - apply Hext. left. exists []. split; reflexivity.
Defined.

(** C4, at an empty offer list: the header is in the request although the
    list is empty. *)
Lemma empty_offer_list_emits_header :
  ¬ ((∃ v, ("Sec-WebSocket-Extensions", v)
           ∈ default [] (raw_request_headers
                           (self (Sample.handshake Sample.example_com None
                                    (Some []) None None Sample.plain).2)))
     ↔ ([] : list string) ≠ []).
Proof.
  intros [Hemitted _]. apply Hemitted; [|reflexivity].
  exists "". vm_compute. apply list_elem_of_In. simpl. auto.
Qed.

(** C5, at a mapping with the key User-Agent: the name is in the request
    twice, once from the mapping and once from the client. *)
Lemma mapping_key_occurs_twice :
  ¬ (∀ k, k ∈ [("User-Agent", "curl")].*1 →
       occurrences k
         (default [] (raw_request_headers
                        (self (Sample.handshake Sample.example_com None None
                                 None
                                 (Some (ExMapping [("User-Agent", "curl")]))
                                 Sample.plain).2)))
       = 1%nat).
Proof.
  intros H. specialize (H "User-Agent").
  assert ("User-Agent" ∈ [("User-Agent", "curl")].*1) as Hin.
  { apply list_elem_of_In. simpl. auto. }
  apply H in Hin. vm_compute in Hin. discriminate Hin.
Qed.

(** ** More on the Python primitives *)

Lemma append_String (a : ascii) (s t : string) :
  String a s +:+ t = String a (s +:+ t).
Proof. reflexivity. Qed.

Lemma append_assoc (s t u : string) : (s +:+ t) +:+ u = s +:+ (t +:+ u).
Proof.
  induction s as [|a s IH]; [done|].
  rewrite !append_String. by rewrite IH.
Qed.

(** [join] on a list with at least two elements. *)
Lemma join_cons (sep s : string) (t : string) (rest : list string) :
  PyStr.join sep (s :: t :: rest) = s +:+ sep +:+ PyStr.join sep (t :: rest).
Proof. reflexivity. Qed.

Lemma join_before (sep s : string) (rest : list string) :
  rest ≠ [] →
  PyStr.join sep (s :: rest) = s +:+ sep +:+ PyStr.join sep rest.
Proof. by destruct rest. Qed.

(** A string without the separator is one field. *)
Lemma split_without (c : ascii) (s : string) :
  PyStr.has_char c s = false → PyStr.split c s = [s].
Proof.
  induction s as [|a s IH]; simpl; [done|].
  intros [Ha Hs]%orb_false_iff. rewrite Ha, IH; done.
Qed.

(** The first separator ends the first field. *)
Lemma split_at_first (c : ascii) (s rest : string) :
  PyStr.has_char c s = false →
  PyStr.split c (s +:+ String c rest) = s :: PyStr.split c rest.
Proof.
  induction s as [|a s IH].
  - intros _. change ("" +:+ String c rest) with (String c rest). simpl.
    by rewrite Ascii.eqb_refl.
  - simpl PyStr.has_char. intros [Ha Hs]%orb_false_iff.
    rewrite append_String. simpl PyStr.split at 1.
    by rewrite Ha, IH.
Qed.

(** No field has the separator in it. *)
Lemma split_fields (c : ascii) (s : string) :
  Forall (λ t, PyStr.has_char c t = false) (PyStr.split c s).
Proof.
  induction s as [|a s IH]; simpl; [by repeat constructor|].
  destruct (Ascii.eqb a c) eqn:Ha; [by constructor|].
  destruct (PyStr.split c s) as [|w ws]; [by repeat constructor; simpl; rewrite Ha|].
  apply Forall_cons in IH as [Hw Hws].
  constructor; [|done]. simpl. by rewrite Ha, Hw.
Qed.

Lemma lstrip_keeps_out (c : ascii) (s : string) :
  PyStr.has_char c s = false → PyStr.has_char c (PyStr.lstrip s) = false.
Proof.
  induction s as [|a s IH]; simpl; [done|].
  intros [Ha Hs]%orb_false_iff.
  destruct (PyStr.isspace a); [by apply IH|]. simpl. by rewrite Ha, Hs.
Qed.

Lemma rstrip_keeps_out (c : ascii) (s : string) :
  PyStr.has_char c s = false → PyStr.has_char c (PyStr.rstrip s) = false.
Proof.
  induction s as [|a s IH]; simpl; [done|].
  intros [Ha Hs]%orb_false_iff. specialize (IH Hs).
  destruct (PyStr.rstrip s) as [|b r].
  - destruct (PyStr.isspace a); [done|]. simpl. by rewrite Ha.
  - simpl. simpl in IH. by rewrite Ha, IH.
Qed.

(** What [lstrip] leaves does not start with white space. *)
Lemma lstrip_head (s : string) :
  PyStr.lstrip s = "" ∨
  ∃ a r, PyStr.lstrip s = String a r ∧ PyStr.isspace a = false.
Proof.
  induction s as [|a s IH]; simpl; [by left|].
  destruct (PyStr.isspace a) eqn:Ha; [done|]. right. by exists a, s.
Qed.

(** [rstrip] keeps a first character that is not white space. *)
Lemma rstrip_head (a : ascii) (r : string) :
  PyStr.isspace a = false → ∃ r', PyStr.rstrip (String a r) = String a r'.
Proof.
  intros Ha. simpl. destruct (PyStr.rstrip r) as [|b r'].
  - rewrite Ha. by eexists.
  - by eexists.
Qed.

Lemma rstrip_idempotent (s : string) :
  PyStr.rstrip (PyStr.rstrip s) = PyStr.rstrip s.
Proof.
  induction s as [|a s IH]; simpl; [done|].
  destruct (PyStr.rstrip s) as [|b r] eqn:Hr.
  - destruct (PyStr.isspace a) eqn:Ha; [done|]. simpl. by rewrite Ha.
  - change (PyStr.rstrip (String a (String b r))) with
      (match PyStr.rstrip (String b r) with
       | "" => if PyStr.isspace a then "" else String a ""
       | r' => String a r'
       end).
    by rewrite IH.
Qed.

Lemma strip_idempotent (s : string) :
  PyStr.strip (PyStr.strip s) = PyStr.strip s.
Proof.
  unfold PyStr.strip.
  destruct (lstrip_head s) as [-> | (a & r & -> & Ha)]; [done|].
  destruct (rstrip_head a r Ha) as [r' Hr']. rewrite Hr'.
  simpl PyStr.lstrip. rewrite Ha. rewrite <- Hr'. apply rstrip_idempotent.
Qed.

(** The tokens the handshake reads out of a header value are tokens. *)
Lemma parsed_tokens_token_like (v : string) :
  Forall token_like (PyStr.strip <$> PyStr.split "," v).
Proof.
  apply Forall_fmap. eapply Forall_impl; [apply split_fields|].
  intros t Ht. split; simpl.
  - unfold PyStr.strip. by apply rstrip_keeps_out, lstrip_keeps_out.
  - apply strip_idempotent.
Qed.

(** A space in front is stripped. *)
Lemma strip_leading_space (t : string) :
  PyStr.strip (String " " t) = PyStr.strip t.
Proof. reflexivity. Qed.

Lemma split_after_space (s : string) :
  PyStr.split "," (String " " s) =
  match PyStr.split "," s with
  | [] => [" "]
  | w :: ws => String " " w :: ws
  end.
Proof. reflexivity. Qed.

(** Splitting the joined tokens gives them back, each but the first with
    the space of the separator in front. *)
Lemma split_join (t : string) (ts : list string) :
  Forall (λ t, PyStr.has_char "," t = false) (t :: ts) →
  PyStr.split "," (PyStr.join ", " (t :: ts)) = t :: (String " " <$> ts).
Proof.
  revert t. induction ts as [|t' ts IH]; intros t Hall.
  - apply Forall_cons in Hall as [Ht _]. simpl. by apply split_without.
  - apply Forall_cons in Hall as [Ht Hall].
    rewrite join_cons.
    change (", " +:+ PyStr.join ", " (t' :: ts))
      with (String "," (String " " (PyStr.join ", " (t' :: ts)))).
    rewrite split_at_first; [|done].
    f_equal. by rewrite split_after_space, IH.
Qed.

(** Reading back what [join] wrote: the round trip of an offer header. *)
Lemma parse_join (l : list string) :
  l ≠ [] → Forall token_like l →
  PyStr.strip <$> PyStr.split "," (PyStr.join ", " l) = l.
Proof.
  destruct l as [|t ts]; [done|]. intros _ Hall.
  rewrite split_join.
  - apply Forall_cons in Hall as [[_ Ht] Hts]. rewrite fmap_cons, Ht. f_equal.
    rewrite <- list_fmap_compose.
    induction Hts as [|t' ts' [_ Ht'] _ IH]; [done|].
    rewrite fmap_cons, IH. f_equal.
    simpl. by rewrite strip_leading_space.
  - eapply Forall_impl; [exact Hall|]. by intros ? [? _].
Qed.

(** The request text is the request line, the header lines and an empty
    line. *)
Lemma join_header_lines (hs : list header) :
  PyStr.join CRLF (((λ kv, kv.1 +:+ ": " +:+ kv.2) <$> hs) ++ [CRLF])
  = header_lines hs +:+ CRLF.
Proof.
  induction hs as [|[k v] hs IH]; [done|].
  rewrite fmap_cons. simpl app.
  rewrite join_before, IH; [|by intros [_ ?]%app_eq_nil].
  simpl header_lines. by rewrite !append_assoc.
Qed.

Lemma request_text_wire (wsuri : WebSocketURI) (hs : list header) :
  request_text wsuri hs = wire_request (resource_name wsuri) hs.
Proof.
  unfold request_text, wire_request. simpl app.
  rewrite join_before, join_header_lines; [|by intros [_ ?]%app_eq_nil].
  by rewrite !append_assoc.
Qed.

(** ** More on the handshake *)
Section HandshakeMore.

Variable USER_AGENT : string.
Variable build_request : N → list header * string.
Variable check_response : (string → string) → string → exn + unit.

Local Abbreviation handshake :=
  (handshake USER_AGENT build_request check_response).
Local Abbreviation validate := (validate check_response).
Local Abbreviation request_header_list :=
  (request_header_list USER_AGENT build_request).

(** The extension step on offers that hold every selected token. *)
Lemma negotiate_extensions_done headers (m : machine) :
  (∀ x, Message_get headers "Sec-WebSocket-Extensions" = Some x →
     ∃ exts, available_extensions (self m) = Some exts ∧
       Forall (λ t, t ∈ exts) (PyStr.strip <$> PyStr.split "," x)) →
  negotiate_extensions headers m = (inr tt, with_extensions headers m).
Proof.
  intros Hext.
  rewrite negotiate_extensions_run. unfold with_extensions.
  destruct (Message_get headers "Sec-WebSocket-Extensions") as [x|]; [|done].
  destruct (Hext x eq_refl) as (exts & -> & Hall). cbn zeta.
  by apply verify_extensions_loop_ok in Hall as ->.
Qed.

(** The subprotocol step on offers that hold the selected value. *)
Lemma negotiate_subprotocol_done headers (m : machine) :
  (∀ x, Message_get headers "Sec-WebSocket-Protocol" = Some x →
     ∃ subs, available_subprotocols (self m) = Some subs ∧ x ∈ subs) →
  negotiate_subprotocol headers m = (inr tt, with_subprotocol headers m).
Proof.
  intros Hsub.
  rewrite negotiate_subprotocol_run. unfold with_subprotocol.
  destruct (Message_get headers "Sec-WebSocket-Protocol") as [x|]; [|done].
  destruct (Hsub x eq_refl) as (subs & -> & Hin). cbn [not_in].
  by apply mem_true in Hin as ->.
Qed.

Lemma with_extensions_frame headers (m : machine) :
  net (with_extensions headers m) = net m ∧
  state (self (with_extensions headers m)) = state (self m) ∧
  available_subprotocols (self (with_extensions headers m))
  = available_subprotocols (self m) ∧
  subprotocol (self (with_extensions headers m)) = subprotocol (self m) ∧
  opening_handshake (self (with_extensions headers m))
  = opening_handshake (self m).
Proof. unfold with_extensions. by destruct (Message_get _ _). Qed.

Lemma with_subprotocol_frame headers (m : machine) :
  net (with_subprotocol headers m) = net m ∧
  state (self (with_subprotocol headers m)) = state (self m) ∧
  extensions (self (with_subprotocol headers m)) = extensions (self m) ∧
  opening_handshake (self (with_subprotocol headers m))
  = opening_handshake (self m).
Proof. unfold with_subprotocol. by destruct (Message_get _ _). Qed.

(** A response that passes every check leaves the transition to OPEN. *)
Lemma handshake_checked wsuri origin ae asp eh (m : machine) extras headers :
  extra_pairs eh = inr extras →
  inbound (net m) = inr (101, headers) →
  check_response (λ k, default "" (Message_get headers k))
    (build_request (random (net m))).2 = inr tt →
  (∀ x, Message_get headers "Sec-WebSocket-Extensions" = Some x →
     ∃ exts, available_extensions (self m) = Some exts ∧
       Forall (λ t, t ∈ exts) (PyStr.strip <$> PyStr.split "," x)) →
  (∀ x, Message_get headers "Sec-WebSocket-Protocol" = Some x →
     ∃ subs, available_subprotocols (self m) = Some subs ∧ x ∈ subs) →
  handshake wsuri origin ae asp eh m =
  open_connection
    (with_subprotocol headers (with_extensions headers
       (stored headers (awaited (sent wsuri
          (request_header_list wsuri origin ae asp extras (random (net m)))
          m))))).
Proof.
  intros Hextra Hin Hcheck Hext Hsub.
  rewrite handshake_validated with (extras := extras) (headers := headers);
    [|done..].
  unfold bind at 1. rewrite negotiate_extensions_done; [|done].
  unfold bind at 1. rewrite negotiate_subprotocol_done; [done|].
  intros x Hx.
  by destruct (with_extensions_frame headers
    (stored headers (awaited (sent wsuri
       (request_header_list wsuri origin ae asp extras (random (net m))) m))))
    as (_ & _ & -> & _); apply Hsub.
Qed.

Lemma validate_keeps_request_headers key (m : machine) :
  request_headers (self (validate key m).2) = request_headers (self m).
Proof.
  rewrite validate_run.
  destruct (inbound (net m)) as [e|[status_code headers]]; [done|].
  destruct (bool_decide _); [done|].
  destruct (check_response _ key) as [e|[]]; [done|].
  unfold bind.
  rewrite negotiate_extensions_run.
  destruct (Message_get headers "Sec-WebSocket-Extensions") as [v|]; cbn zeta;
    [destruct (verify_extensions_loop _ _) as [e|[]]; [done|] |];
    rewrite negotiate_subprotocol_run;
    (destruct (Message_get headers "Sec-WebSocket-Protocol") as [w|];
     [destruct (not_in w _) as [e|[]]; [done..|] |]);
    rewrite open_connection_run; by destruct (bool_decide _).
Qed.

Local Set Warnings "-clear-no-such-hyp".

(** X1. The Origin header is set by the client exactly when an origin is
    given, with the origin as its value. (The name is taken not to be set
    by [extra_headers] or [build_request].) *)
Theorem origin_header_iff_provided wsuri origin ae asp eh (m : machine) hs :
  raw_request_headers (self m) = None →
  raw_request_headers (self (handshake wsuri origin ae asp eh m).2) = Some hs →
  (∀ extras k v, extra_pairs eh = inr extras → (k, v) ∈ extras →
     k ≠ "Origin") →
  (∀ k v, (k, v) ∈ (build_request (random (net m))).1 → k ≠ "Origin") →
  ∀ v, ("Origin", v) ∈ hs ↔ origin = Some v.
Proof.
  intros Hnew Hhs Hextras Hkey v.
  apply handshake_request_inv in Hhs as (extras & Hextra & ->); [|done].
  specialize (Hextras extras).
  unfold request_header_list, own_headers, offer_header.
  destruct origin as [o|], ae as [l1|], asp as [l2|];
    repeat (rewrite elem_of_app || rewrite elem_of_cons
            || rewrite elem_of_nil);
    naive_solver.
Qed.

(** X2. Whatever the caller passes, the header sequence of the request
    ends with the User-Agent header of the client followed by the headers
    of [build_request]; the pairs of [extra_headers] come right before, in
    the order in which [extra_headers] yields them (the iteration order of
    a mapping, the order of a sequence of pairs), and the [Message] and the
    raw list stored on the protocol object are this same sequence. *)
Theorem user_agent_follows_caller_headers
    wsuri origin ae asp eh (m : machine) hs :
  raw_request_headers (self m) = None →
  raw_request_headers (self (handshake wsuri origin ae asp eh m).2) = Some hs →
  request_headers (self (handshake wsuri origin ae asp eh m).2) = Some hs ∧
  ∃ extras before,
    extra_pairs eh = inr extras ∧
    hs = (before ++ extras ++
          ("User-Agent", USER_AGENT) :: (build_request (random (net m))).1)%list ∧
    (∀ mp, eh = Some (ExMapping mp) → extras = mp) ∧
    (∀ pairs, eh = Some (ExSeq (pair_item <$> pairs)) → extras = pairs).
Proof.
  intros Hnew Hhs.
  apply handshake_request_inv in Hhs as (extras & Hextra & ->); [|done].
  split.
  { by rewrite handshake_phases, Hextra, validate_keeps_request_headers. }
  eexists _, _. split_and!; [done..| |].
  - intros mp ->. rewrite extra_pairs_mapping in Hextra. by injection Hextra.
  - intros pairs ->. rewrite extra_pairs_sequence in Hextra.
    by injection Hextra.
Qed.

(** X3. A handshake that gets as far as storing its request does two
    things on the network and no more: it writes the request once (the
    request line with the resource name, one line per header, an empty
    line, each ended by CRLF) and then reads the response once. *)
Theorem handshake_writes_then_reads wsuri origin ae asp eh (m : machine) hs :
  raw_request_headers (self m) = None →
  raw_request_headers (self (handshake wsuri origin ae asp eh m).2) = Some hs →
  log (net (handshake wsuri origin ae asp eh m).2) =
  (log (net m) ++ [EvWrite (wire_request (resource_name wsuri) hs); EvRead])%list.
Proof.
  intros Hnew Hhs.
  apply handshake_request_inv in Hhs as (extras & Hextra & ->); [|done].
  rewrite handshake_phases, Hextra, validate_net. fields.
  by rewrite request_text_wire, <- app_assoc.
Qed.

(** X4. When [read_response] raises an instance of [Exception], the
    handshake raises [InvalidHandshake] "Malformed HTTP message" with that
    exception as its cause. An exception that is not an instance of
    [Exception] ([KeyboardInterrupt], [GeneratorExit], a cancellation from
    Python 3.8 on) is not caught: the handshake raises it as it is. In
    both cases nothing of a response is stored and the state does not
    change. *)
Theorem malformed_response_raises
    wsuri origin ae asp eh (m : machine) extras exc r m' :
  extra_pairs eh = inr extras →
  inbound (net m) = inl exc →
  handshake wsuri origin ae asp eh m = (r, m') →
  (is_Exception exc = true →
     r = inl (InvalidHandshake "Malformed HTTP message" (Some exc))) ∧
  (is_Exception exc = false → r = inl exc) ∧
  state (self m') = state (self m) ∧
  response_headers (self m') = response_headers (self m) ∧
  raw_response_headers (self m') = raw_response_headers (self m) ∧
  extensions (self m') = extensions (self m) ∧
  subprotocol (self m') = subprotocol (self m).
Proof.
  intros Hextra Hin H.
  rewrite handshake_phases, Hextra, validate_run in H. fields.
  rewrite Hin in H. injection H as <- <-.
  by destruct (is_Exception exc).
Qed.

(** X5. A status code other than 101 raises [InvalidHandshake] "Bad status
    code: " followed by the code, whatever the headers of the response
    are; they are not stored, [check_response] is not consulted and the
    state does not change. *)
Theorem bad_status_raises
    wsuri origin ae asp eh (m : machine) extras status headers r m' :
  extra_pairs eh = inr extras →
  inbound (net m) = inr (status, headers) →
  status ≠ 101 →
  handshake wsuri origin ae asp eh m = (r, m') →
  r = inl (InvalidHandshake ("Bad status code: " +:+ PyStr.of_int status) None) ∧
  state (self m') = state (self m) ∧
  response_headers (self m') = response_headers (self m) ∧
  raw_response_headers (self m') = raw_response_headers (self m) ∧
  extensions (self m') = extensions (self m) ∧
  subprotocol (self m') = subprotocol (self m).
Proof.
  intros Hextra Hin Hstatus H.
  rewrite handshake_phases, Hextra, validate_run in H. fields.
  rewrite Hin, bool_decide_eq_true_2 in H; [|done].
  by injection H as <- <-.
Qed.

(** X6. When [check_response] raises on a 101 response, the handshake
    raises the same exception. The response headers are stored on the
    protocol object by then, so they stay readable after the failure;
    nothing is negotiated and the state does not change. *)
Theorem rejected_response_is_kept
    wsuri origin ae asp eh (m : machine) extras headers e r m' :
  extra_pairs eh = inr extras →
  inbound (net m) = inr (101, headers) →
  check_response (λ k, default "" (Message_get headers k))
    (build_request (random (net m))).2 = inl e →
  handshake wsuri origin ae asp eh m = (r, m') →
  r = inl e ∧
  response_headers (self m') = Some headers ∧
  raw_response_headers (self m') = Some headers ∧
  state (self m') = state (self m) ∧
  extensions (self m') = extensions (self m) ∧
  subprotocol (self m') = subprotocol (self m).
Proof.
  intros Hextra Hin Hcheck H.
  rewrite handshake_phases, Hextra, validate_run in H. fields.
  rewrite Hin in H. cbn in H. rewrite Hcheck in H.
  by injection H as <- <-.
Qed.

(** X7. The handshake asserts that the connection is CONNECTING only at
    its end. On a protocol object in another state, with a response that
    passes every check, it raises [AssertionError]: the state and
    [opening_handshake] are as before, although the request was sent and
    the negotiated extensions and subprotocol are assigned. *)
Theorem handshake_asserts_connecting
    wsuri origin ae asp eh (m : machine) extras headers r m' :
  state (self m) ≠ CONNECTING →
  extra_pairs eh = inr extras →
  inbound (net m) = inr (101, headers) →
  check_response (λ k, default "" (Message_get headers k))
    (build_request (random (net m))).2 = inr tt →
  (∀ x, Message_get headers "Sec-WebSocket-Extensions" = Some x →
     ∃ exts, available_extensions (self m) = Some exts ∧
       Forall (λ t, t ∈ exts) (PyStr.strip <$> PyStr.split "," x)) →
  (∀ x, Message_get headers "Sec-WebSocket-Protocol" = Some x →
     ∃ subs, available_subprotocols (self m) = Some subs ∧ x ∈ subs) →
  handshake wsuri origin ae asp eh m = (r, m') →
  r = inl AssertionError ∧
  state (self m') = state (self m) ∧
  opening_handshake (self m') = opening_handshake (self m) ∧
  (∀ x, Message_get headers "Sec-WebSocket-Extensions" = Some x →
     extensions (self m') = Some (PyStr.strip <$> PyStr.split "," x)) ∧
  (∀ x, Message_get headers "Sec-WebSocket-Protocol" = Some x →
     subprotocol (self m') = Some x) ∧
  log (net m') =
  (log (net m)
   ++ [EvWrite (wire_request (resource_name wsuri)
                  (request_header_list wsuri origin ae asp extras
                     (random (net m))));
       EvRead])%list.
Proof.
  intros Hs Hextra Hin Hcheck Hext Hsub H.
  rewrite handshake_checked with (extras := extras) (headers := headers) in H;
    [|done..].
  rewrite open_connection_run in H.
  unfold with_subprotocol, with_extensions in H.
  destruct (Message_get headers "Sec-WebSocket-Extensions") as [x|];
    destruct (Message_get headers "Sec-WebSocket-Protocol") as [y|];
    fields; rewrite bool_decide_eq_false_2 in H by done;
    injection H as <- <-; split_and!; try done;
    try (by intros ? [= <-]);
    fields; by rewrite request_text_wire, <- !app_assoc.
Qed.

(** X8. The converse of the validation: on a connection in state
    CONNECTING with well-formed [extra_headers], a 101 response that
    [check_response] accepts and that selects only offered extensions and
    an offered subprotocol makes the handshake return. The connection is
    then OPEN, [opening_handshake] holds [True], the response headers are
    stored, and [extensions] and [subprotocol] hold what the response
    selected. *)
Theorem accepted_response_opens
    wsuri origin ae asp eh (m : machine) extras headers r m' :
  state (self m) = CONNECTING →
  extra_pairs eh = inr extras →
  inbound (net m) = inr (101, headers) →
  check_response (λ k, default "" (Message_get headers k))
    (build_request (random (net m))).2 = inr tt →
  (∀ x, Message_get headers "Sec-WebSocket-Extensions" = Some x →
     ∃ exts, available_extensions (self m) = Some exts ∧
       Forall (λ t, t ∈ exts) (PyStr.strip <$> PyStr.split "," x)) →
  (∀ x, Message_get headers "Sec-WebSocket-Protocol" = Some x →
     ∃ subs, available_subprotocols (self m) = Some subs ∧ x ∈ subs) →
  handshake wsuri origin ae asp eh m = (r, m') →
  r = inr tt ∧
  state (self m') = OPEN ∧
  opening_handshake (self m') = Some true ∧
  response_headers (self m') = Some headers ∧
  extensions (self m') =
    match Message_get headers "Sec-WebSocket-Extensions" with
    | Some x => Some (PyStr.strip <$> PyStr.split "," x)
    | None => extensions (self m)
    end ∧
  subprotocol (self m') =
    match Message_get headers "Sec-WebSocket-Protocol" with
    | Some x => Some x
    | None => subprotocol (self m)
    end.
Proof.
  intros Hs Hextra Hin Hcheck Hext Hsub H.
  rewrite handshake_checked with (extras := extras) (headers := headers) in H;
    [|done..].
  rewrite open_connection_run in H.
  unfold with_subprotocol, with_extensions in H.
  destruct (Message_get headers "Sec-WebSocket-Extensions") as [x|];
    destruct (Message_get headers "Sec-WebSocket-Protocol") as [y|];
    fields; rewrite bool_decide_eq_true_2 in H by done;
    by injection H as <- <-.
Qed.

(** X9. A round trip between the request and the validation: when the
    server answers with the very value of the Sec-WebSocket-Extensions
    header that the client sent for a non-empty list of tokens, the
    extensions negotiated are exactly the list offered, in its order. *)
Theorem echoed_offer_is_negotiated
    wsuri origin asp eh (m : machine) extras headers offers r m' :
  state (self m) = CONNECTING →
  extra_pairs eh = inr extras →
  inbound (net m) = inr (101, headers) →
  check_response (λ k, default "" (Message_get headers k))
    (build_request (random (net m))).2 = inr tt →
  offers ≠ [] → Forall token_like offers →
  available_extensions (self m) = Some offers →
  Message_get headers "Sec-WebSocket-Extensions"
  = Some (PyStr.join ", " offers) →
  (∀ x, Message_get headers "Sec-WebSocket-Protocol" = Some x →
     ∃ subs, available_subprotocols (self m) = Some subs ∧ x ∈ subs) →
  handshake wsuri origin (Some offers) asp eh m = (r, m') →
  ("Sec-WebSocket-Extensions", PyStr.join ", " offers)
  ∈ default [] (raw_request_headers (self m')) ∧
  r = inr tt ∧
  extensions (self m') = Some offers.
Proof.
  intros Hs Hextra Hin Hcheck Hne Htokens Havail Hget Hsub H.
  assert (PyStr.strip <$> PyStr.split "," (PyStr.join ", " offers) = offers)
    as Hparse by by apply parse_join.
  split.
  - pose proof (handshake_request USER_AGENT build_request check_response
                  wsuri origin (Some offers) asp eh m) as Hreq.
    rewrite Hextra, H in Hreq. simpl in Hreq. rewrite Hreq. simpl.
    unfold request_header_list, own_headers, offer_header.
    destruct origin;
      repeat (rewrite elem_of_app || rewrite elem_of_cons); naive_solver.
  - rewrite handshake_checked with (extras := extras) (headers := headers)
      in H; [|try done..].
    + rewrite open_connection_run in H.
      unfold with_subprotocol, with_extensions in H. rewrite Hget in H.
      destruct (Message_get headers "Sec-WebSocket-Protocol") as [y|];
        fields; rewrite bool_decide_eq_true_2 in H by done;
        injection H as <- <-; fields; by rewrite Hparse.
    + intros x. rewrite Hget. intros [= <-]. exists offers.
      split; [done|]. rewrite Hparse. by apply Forall_forall.
Qed.

End HandshakeMore.

(** ** More on [connect] *)
Section ConnectMore.

Variable USER_AGENT : string.
Variable build_request : N → list header * string.
Variable check_response : (string → string) → string → exn + unit.
Variable parse_uri : string → exn + WebSocketURI.

Local Abbreviation handshake :=
  (handshake USER_AGENT build_request check_response).
Local Abbreviation connect :=
  (connect USER_AGENT build_request check_response parse_uri).
Local Abbreviation request_header_list :=
  (request_header_list USER_AGENT build_request).
Local Abbreviation establish :=
  (establish USER_AGENT build_request check_response).

(** A handshake that returns passed every check, and the protocol object
    is then the one the negotiation leaves, OPEN. *)
Lemma handshake_success_inv wsuri origin ae asp eh (m : machine) u m' :
  state (self m) = CONNECTING →
  handshake wsuri origin ae asp eh m = (inr u, m') →
  ∃ extras headers,
    extra_pairs eh = inr extras ∧
    inbound (net m) = inr (101, headers) ∧
    (∀ x, Message_get headers "Sec-WebSocket-Extensions" = Some x →
       ∃ exts, available_extensions (self m) = Some exts ∧
         Forall (λ t, t ∈ exts) (PyStr.strip <$> PyStr.split "," x)) ∧
    (∀ x, Message_get headers "Sec-WebSocket-Protocol" = Some x →
       ∃ subs, available_subprotocols (self m) = Some subs ∧ x ∈ subs) ∧
    m' = opened (with_subprotocol headers (with_extensions headers
           (stored headers (awaited (sent wsuri
              (request_header_list wsuri origin ae asp extras
                 (random (net m))) m))))).
Proof.
  intros Hs H.
  pose proof (handshake_outcome _ _ _ _ _ _ _ _ _ _ _ Hs H)
    as [_ (headers & Hin & Hcheck & Hext & Hsub)].
  pose proof (handshake_request USER_AGENT build_request check_response
                wsuri origin ae asp eh m) as Hreq.
  destruct (extra_pairs eh) as [e|extras] eqn:Hextra.
  { rewrite H in Hreq. discriminate Hreq. }
  exists extras, headers. split_and!; [done..|].
  rewrite handshake_checked with (extras := extras) (headers := headers) in H;
    [|done..].
  rewrite open_connection_run in H.
  assert (state (self (with_subprotocol headers (with_extensions headers
            (stored headers (awaited (sent wsuri
               (request_header_list wsuri origin ae asp extras
                  (random (net m))) m)))))) = CONNECTING) as Hstate.
  { unfold with_subprotocol, with_extensions.
    by destruct (Message_get headers "Sec-WebSocket-Extensions"),
                (Message_get headers "Sec-WebSocket-Protocol"). }
  rewrite Hstate in H. cbn in H. by injection H as _ <-.
Qed.

(** A [connect] that returns went through [create_connection] and a
    handshake that returned. *)
Lemma connect_success_inv uri kwds origin exts subs eh (w : world) p w' :
  connect uri kwds origin exts subs eh w = (inr p, w') →
  ∃ wsuri kwds' m',
    parse_uri uri = inr wsuri ∧
    kwds' = (if secure wsuri then setdefault "ssl" (KwBool true) kwds
             else kwds) ∧
    connect_error w = None ∧
    handshake wsuri origin exts subs eh
      {| self := new_protocol origin exts subs eh;
         net := record_event (EvConnect (host wsuri) (port wsuri) kwds')
                  true w |} = (inr tt, m') ∧
    p = self m' ∧ w' = net m'.
Proof.
  rewrite connect_run. destruct (parse_uri uri) as [e|wsuri]; [done|].
  assert (∀ kwds',
    establish wsuri kwds' origin exts subs eh w = (inr p, w') →
    ∃ m', connect_error w = None ∧
      handshake wsuri origin exts subs eh
        {| self := new_protocol origin exts subs eh;
           net := record_event (EvConnect (host wsuri) (port wsuri) kwds')
                    true w |} = (inr tt, m') ∧
      p = self m' ∧ w' = net m') as Hest.
  { intros kwds'. unfold establish.
    destruct (connect_error w) as [e|]; [done|].
    destruct (handshake _ _ _ _ _ _) as [[e|[]] m'];
      [by destruct (is_Exception e)|].
    intros [= <- <-]. by exists m'. }
  destruct (secure wsuri) eqn:Hsecure.
  - intros (m' & ? & ? & ? & ?)%Hest.
    exists wsuri, (setdefault "ssl" (KwBool true) kwds), m'.
    rewrite Hsecure. by split_and!.
  - destruct (bool_decide _); [done|].
    intros (m' & ? & ? & ? & ?)%Hest.
    exists wsuri, kwds, m'. rewrite Hsecure. by split_and!.
Qed.

(** The first thing [establish] does is to open the transport. *)
Lemma establish_log wsuri kwds origin exts subs eh (w : world) :
  ∃ later,
    log (establish wsuri kwds origin exts subs eh w).2 =
    (log w ++ EvConnect (host wsuri) (port wsuri) kwds :: later)%list.
Proof.
  unfold establish. destruct (connect_error w) as [e|]; [by exists []|].
  pose proof (handshake_net USER_AGENT build_request check_response
    wsuri origin exts subs eh
    {| self := new_protocol origin exts subs eh;
       net := record_event (EvConnect (host wsuri) (port wsuri) kwds) true w |})
    as (later & Hlog & _).
  destruct (handshake _ _ _ _ _ _) as [[e|[]] m1]; fields.
  - destruct (is_Exception e); fields.
    + exists (later ++ [EvAbort])%list. rewrite Hlog. by rewrite <- !app_assoc.
    + exists later. rewrite Hlog. by rewrite <- !app_assoc.
  - exists later. rewrite Hlog. by rewrite <- !app_assoc.
Qed.

(** X10. What [connect] returns is what was offered: the protocol object
    is OPEN with [opening_handshake] set; its extensions, when the
    response selected some, are a non-empty list of stripped tokens that
    are all in the [extensions] argument; its subprotocol, when the
    response selected one, is an element of the [subprotocols] argument;
    and the offers stored on it are the arguments. *)
Theorem connect_returns_negotiated_offers
    uri kwds origin exts subs eh (w : world) p w' :
  connect uri kwds origin exts subs eh w = (inr p, w') →
  state p = OPEN ∧
  opening_handshake p = Some true ∧
  available_extensions p = exts ∧
  available_subprotocols p = subs ∧
  (∀ l, extensions p = Some l →
     l ≠ [] ∧ Forall token_like l ∧
     ∃ offers, exts = Some offers ∧ Forall (λ t, t ∈ offers) l) ∧
  (∀ v, subprotocol p = Some v →
     ∃ offers, subs = Some offers ∧ v ∈ offers).
Proof.
  intros (wsuri & kwds' & m' & _ & _ & _ & H & -> & _)%connect_success_inv.
  apply handshake_success_inv in H
    as (extras & headers & _ & _ & Hext & Hsub & ->); [|done].
  unfold opened, with_subprotocol, with_extensions. fields.
  destruct (Message_get headers "Sec-WebSocket-Extensions") as [x|];
    destruct (Message_get headers "Sec-WebSocket-Protocol") as [y|];
    fields; split_and!; try done.
  all: try (intros l [= <-]; split_and!;
            [ destruct (split_cons "," x) as (t & ts & ->); done
            | apply parsed_tokens_token_like
            | by apply Hext ]).
  all: by intros v [= <-]; apply Hsub.
Qed.

(** X11. A URI that [parse_uri] rejects makes [connect] raise the error of
    [parse_uri], and nothing happens on the network: no connection is
    attempted. *)
Theorem invalid_uri_fails_before_network
    uri kwds origin exts subs eh (w : world) e :
  parse_uri uri = inl e →
  connect uri kwds origin exts subs eh w = (inl e, w).
Proof. intros Hparse. by rewrite connect_run, Hparse. Qed.

(** X12. When [create_connection] fails, [connect] raises its error. The
    attempt is all that happened on the network: no request is written
    and, there being no protocol object, nothing is closed. *)
Theorem connection_error_is_propagated
    uri kwds origin exts subs eh (w : world) wsuri e :
  parse_uri uri = inr wsuri →
  (secure wsuri = false → "ssl" ∉ dom kwds) →
  connect_error w = Some e →
  ∃ kwds' w',
    connect uri kwds origin exts subs eh w = (inl e, w') ∧
    log w' = (log w ++ [EvConnect (host wsuri) (port wsuri) kwds'])%list ∧
    transport_open w' = false.
Proof.
  intros Hparse Hssl Hconn. rewrite connect_run, Hparse.
  destruct (secure wsuri).
  - unfold establish. rewrite Hconn. by eexists _, _.
  - rewrite bool_decide_eq_false_2 by by apply Hssl.
    unfold establish. rewrite Hconn. by eexists _, _.
Qed.

(** X13. The keyword arguments of [connect] reach [create_connection] as
    they are. Every option other than [ssl] is passed on unchanged, an
    [ssl] option that is given is passed on unchanged too (also for a
    secure URI, where it is not replaced by [True]), and an absent [ssl]
    stays absent for a URI that is not secure. *)
Theorem connect_passes_options_on
    uri kwds origin exts subs eh (w : world) wsuri :
  parse_uri uri = inr wsuri →
  (secure wsuri = false → "ssl" ∉ dom kwds) →
  ∃ kwds' later,
    log (connect uri kwds origin exts subs eh w).2 =
    (log w ++ EvConnect (host wsuri) (port wsuri) kwds' :: later)%list ∧
    (∀ k, k ≠ "ssl" → kwds' !! k = kwds !! k) ∧
    (∀ v, kwds !! "ssl" = Some v → kwds' !! "ssl" = Some v) ∧
    (kwds !! "ssl" = None → secure wsuri = false → kwds' !! "ssl" = None).
Proof.
  intros Hparse Hssl. rewrite connect_run, Hparse.
  destruct (secure wsuri) eqn:Hsecure.
  - destruct (establish_log wsuri (setdefault "ssl" (KwBool true) kwds)
                origin exts subs eh w) as [later Hlog].
    eexists _, later. split; [exact Hlog|].
    unfold setdefault. destruct (kwds !! "ssl") as [v|] eqn:Hv.
    + split_and!; [done| |done]. by intros ? [= <-].
    + split_and!; [|done..]. intros k Hk. by rewrite lookup_insert_ne.
  - rewrite bool_decide_eq_false_2 by by apply Hssl.
    destruct (establish_log wsuri kwds origin exts subs eh w)
      as [later Hlog].
    by eexists _, later.
Qed.

(** X14. A [connect] that returns did three things on the network, in this
    order: it opened the transport, wrote the request that is stored on
    the protocol object, and read the response. The transport is never
    aborted on the way and is open at the end. *)
Theorem successful_connect_network_activity
    uri kwds origin exts subs eh (w : world) p w' :
  connect uri kwds origin exts subs eh w = (inr p, w') →
  ∃ wsuri kwds' hs,
    parse_uri uri = inr wsuri ∧
    raw_request_headers p = Some hs ∧
    log w' = (log w ++ [EvConnect (host wsuri) (port wsuri) kwds';
                        EvWrite (wire_request (resource_name wsuri) hs);
                        EvRead])%list ∧
    transport_open w' = true.
Proof.
  intros (wsuri & kwds' & m' & Hparse & _ & _ & H & -> & ->)%connect_success_inv.
  apply handshake_success_inv in H
    as (extras & headers & _ & _ & _ & _ & ->); [|done].
  exists wsuri, kwds',
    (request_header_list wsuri origin exts subs extras (random w)).
  unfold opened, with_subprotocol, with_extensions.
  destruct (Message_get headers "Sec-WebSocket-Extensions") as [x|];
    destruct (Message_get headers "Sec-WebSocket-Protocol") as [y|];
    fields; rewrite request_text_wire, <- !app_assoc; done.
Qed.

End ConnectMore.

(** ** The scripts *)

Lemma prefix_append (s x : string) : String.prefix s (s +:+ x) = true.
Proof.
  induction s as [|a s IH]; [by destruct x|].
  rewrite append_String. simpl. by destruct (ascii_dec a a).
Qed.

Lemma no_close_in (body : list op) :
  Forall (λ o, o ≠ OpClose) body → OpClose ∉ body.
Proof. intros Hall Hin. by eapply Forall_forall in Hall. Qed.

(** The [finally] clause of [hello], reached after the operations [body]:
    both outcomes of [close]. *)
Ltac finally_close body :=
  match goal with
  | |- context [?answer (?x ++ [OpClose])%list] =>
      let Hclose := fresh "Hclose" in
      destruct (answer (x ++ [OpClose])%list) eqn:Hclose;
      intros [= <- <-]; exists body;
      (split_and!;
       [ by rewrite <- !app_assoc
       | apply no_close_in; by repeat constructor
       | intros e' He'; rewrite Hclose in He'; congruence
       | try done; intros _; eexists _, _; reflexivity ])
  end.

Section ScriptProofs.

Variable USER_AGENT : string.
Variable build_request : N → list header * string.
Variable check_response : (string → string) → string → exn + unit.
Variable parse_uri : string → exn + WebSocketURI.
Variable json_loads : string → exn + Z.
Variable peer : list op → world.
Variable answer : list op → exn + string.

Local Abbreviation websockets_connect :=
  (websockets_connect USER_AGENT build_request check_response parse_uri peer).
Local Abbreviation perform := (perform answer).
Local Abbreviation get_case_count :=
  (get_case_count USER_AGENT build_request check_response parse_uri
     json_loads peer answer).
Local Abbreviation run_case :=
  (run_case USER_AGENT build_request check_response parse_uri peer answer).
Local Abbreviation update_reports :=
  (update_reports USER_AGENT build_request check_response parse_uri peer
     answer).
Local Abbreviation run_tests :=
  (run_tests USER_AGENT build_request check_response parse_uri
     json_loads peer answer).
Local Abbreviation hello :=
  (hello USER_AGENT build_request check_response parse_uri peer answer).

(** [connect] is one more operation of the script, whatever it returns. *)
Lemma websockets_connect_run uri k (t : list op) :
  websockets_connect uri k t
  = ((websockets_connect uri k t).1, (t ++ [OpConnect uri k])%list).
Proof. reflexivity. Qed.

Lemma perform_run o (t : list op) :
  perform o t = (answer (t ++ [o])%list, (t ++ [o])%list).
Proof. reflexivity. Qed.

(** One turn of the loop of [run_tests] on a server that accepts every
    connection and lets every worker end. *)
Lemma run_tests_turn server agent cases case (t : list op) :
  (∀ t uri k, String.prefix server uri = true →
     ∃ p, (websockets_connect uri k t).1 = inr p) →
  (∀ t, ∃ s, answer (t ++ [OpWorker])%list = inr s) →
  (print ("Running test case " +:+ PyStr.of_int case +:+ " out of "
          +:+ PyStr.of_int cases) CR ;;
   run_case server case agent) t
  = (inr tt, (t ++ case_ops server agent cases case)%list).
Proof.
  intros Hconn Hworker.
  unfold bind, print, modify, run_case, bind, ret.
  rewrite websockets_connect_run.
  destruct (Hconn (t ++ [OpPrint ("Running test case " +:+ PyStr.of_int case
                                   +:+ " out of " +:+ PyStr.of_int cases) CR])%list
              (server +:+ "/runCase?case=" +:+ PyStr.of_int case
               +:+ "&agent=" +:+ agent) EchoClientProtocol
              (prefix_append _ _)) as [p ->].
  rewrite perform_run.
  destruct (Hworker ((t ++ [OpPrint ("Running test case " +:+ PyStr.of_int case
                                     +:+ " out of " +:+ PyStr.of_int cases) CR])
                     ++ [OpConnect (server +:+ "/runCase?case="
                                    +:+ PyStr.of_int case
                                    +:+ "&agent=" +:+ agent)
                           EchoClientProtocol])%list) as [s ->].
  unfold case_ops. by rewrite <- !app_assoc.
Qed.

(** The loop of [run_tests] on such a server runs every case of the list,
    in its order. *)
Lemma run_tests_loop server agent cases (l : list Z) (t : list op) :
  (∀ t uri k, String.prefix server uri = true →
     ∃ p, (websockets_connect uri k t).1 = inr p) →
  (∀ t, ∃ s, answer (t ++ [OpWorker])%list = inr s) →
  for_each l
    (λ case,
       print ("Running test case " +:+ PyStr.of_int case +:+ " out of "
              +:+ PyStr.of_int cases) CR ;;
       run_case server case agent) t
  = (inr tt, (t ++ mjoin (case_ops server agent cases <$> l))%list).
Proof.
  intros Hconn Hworker. revert t.
  induction l as [|case l IH]; intros t.
  { simpl. by rewrite app_nil_r. }
  simpl for_each. unfold bind at 1.
  rewrite run_tests_turn by done.
  rewrite IH. simpl. by rewrite <- app_assoc.
Qed.

(** X15. [run_tests] against a compliance server that accepts every
    connection under [server], lets every [close] and every worker end,
    and announces [cases] test cases: the script gets the count on a first
    connection that it closes, then runs the cases 1 to [cases] in
    increasing order (none when [cases] is not positive), each on a
    connection of its own with [EchoClientProtocol] that it leaves to the
    worker without closing it, prints the summary line, and updates the
    reports on a last connection that it closes. It does nothing else. *)
Theorem run_tests_operations server agent msg cases (t : list op) :
  (∀ t uri k, String.prefix server uri = true →
     ∃ p, (websockets_connect uri k t).1 = inr p) →
  (∀ t, ∃ s, answer (t ++ [OpClose])%list = inr s) →
  (∀ t, ∃ s, answer (t ++ [OpWorker])%list = inr s) →
  answer (t ++ [OpConnect (server +:+ "/getCaseCount") WebSocketClientProtocol;
                OpRecv])%list = inr msg →
  json_loads msg = inr cases →
  run_tests server agent t =
  (inr tt,
   (t ++ [OpConnect (server +:+ "/getCaseCount") WebSocketClientProtocol;
          OpRecv; OpClose]
      ++ mjoin (case_ops server agent cases <$> seqZ 1 cases)
      ++ [OpPrint ("Ran " +:+ PyStr.of_int cases
                   +:+ " test cases               ") LF;
          OpConnect (server +:+ "/updateReports?agent=" +:+ agent)
            WebSocketClientProtocol;
          OpClose])%list).
Proof.
  intros Hconn Hclose Hworker Hmsg Hcases.
  unfold run_tests, get_case_count.
  unfold bind at 1. unfold bind at 1.
  rewrite websockets_connect_run.
  destruct (Hconn t (server +:+ "/getCaseCount") WebSocketClientProtocol
              (prefix_append _ _)) as [p ->].
  unfold bind at 1. rewrite perform_run.
  rewrite (list.cons_middle _ t [OpRecv]), app_assoc in Hmsg. rewrite Hmsg.
  unfold bind at 1. rewrite perform_run.
  match goal with
  | |- context [answer (?t' ++ [OpClose])%list] =>
      destruct (Hclose t') as [s ->]
  end.
  unfold lift. rewrite Hcases.
  unfold bind at 1. rewrite run_tests_loop by done.
  unfold bind at 1, print, modify.
  unfold update_reports, bind, ret.
  rewrite websockets_connect_run.
  match goal with
  | |- context [(websockets_connect ?u ?k ?t').1] =>
      destruct (Hconn t' u k (prefix_append _ _)) as [q ->]
  end.
  rewrite perform_run.
  match goal with
  | |- context [answer (?t' ++ [OpClose])%list] =>
      destruct (Hclose t') as [s' ->]
  end.
  by rewrite <- !app_assoc.
Qed.

(** X16. [get_case_count] closes its connection only after [recv]
    returned: when [recv] raises on the open connection, the function
    raises the same exception right away, and [close] is never called. *)
Theorem get_case_count_leaks_on_recv_error server p e (t : list op) :
  (websockets_connect (server +:+ "/getCaseCount") WebSocketClientProtocol t).1
  = inr p →
  answer (t ++ [OpConnect (server +:+ "/getCaseCount") WebSocketClientProtocol;
                OpRecv])%list = inl e →
  get_case_count server t =
  (inl e, (t ++ [OpConnect (server +:+ "/getCaseCount")
                   WebSocketClientProtocol; OpRecv])%list).
Proof.
  intros Hconn Hrecv. unfold get_case_count.
  unfold bind at 1. rewrite websockets_connect_run, Hconn.
  unfold bind at 1. rewrite perform_run.
  rewrite (list.cons_middle _ t [OpRecv]), app_assoc in Hrecv. rewrite Hrecv.
  by rewrite <- app_assoc.
Qed.

(** X17. Once its connection is established, [hello] always closes it, and
    exactly once, as the last thing it does: whatever [input], [send] and
    [recv] return or raise, the operations after the connection end with
    the one [close]. When [close] raises, its exception is the one that
    [hello] raises; and [hello] returns only after the whole exchange:
    prompt, send the name, print it, receive the greeting, print it. *)
Theorem hello_always_closes p (t : list op) r t' :
  (websockets_connect "ws://localhost:8765/" WebSocketClientProtocol t).1
  = inr p →
  hello t = (r, t') →
  ∃ body,
    t' = (t ++ OpConnect "ws://localhost:8765/" WebSocketClientProtocol
             :: body ++ [OpClose])%list ∧
    (OpClose ∉ body) ∧
    (∀ e, answer t' = inl e → r = inl e) ∧
    (r = inr tt →
       ∃ name greeting,
         body = [OpInput "What's your name? "; OpSend name;
                 OpPrint ("> " +:+ name) LF; OpRecv;
                 OpPrint ("< " +:+ greeting) LF]).
Proof.
  intros Hconn. unfold hello.
  unfold bind at 1. rewrite websockets_connect_run, Hconn.
  unfold try_finally, bind, print, modify, ret, perform. cbv zeta.
  match goal with
  | |- context [answer (?x ++ [OpInput ?q])%list] =>
      destruct (answer (x ++ [OpInput q])%list) as [e1|name] eqn:Hinput
  end.
  { finally_close [OpInput "What's your name? "]. }
  match goal with
  | |- context [answer (?x ++ [OpSend name])%list] =>
      destruct (answer (x ++ [OpSend name])%list) as [e2|sent] eqn:Hsend
  end.
  { finally_close [OpInput "What's your name? "; OpSend name]. }
  match goal with
  | |- context [answer (?x ++ [OpRecv])%list] =>
      destruct (answer (x ++ [OpRecv])%list) as [e3|greeting] eqn:Hrecv
  end.
  { finally_close [OpInput "What's your name? "; OpSend name;
                   OpPrint ("> " +:+ name) LF; OpRecv]. }
  finally_close [OpInput "What's your name? "; OpSend name;
                 OpPrint ("> " +:+ name) LF; OpRecv;
                 OpPrint ("< " +:+ greeting) LF].
Qed.

(** X18. [hello] connects outside its [try]: when the connection cannot be
    established, the exception of [connect] is raised as it is; the user
    is not prompted and nothing is closed. *)
Theorem hello_connect_error e (t : list op) :
  (websockets_connect "ws://localhost:8765/" WebSocketClientProtocol t).1
  = inl e →
  hello t =
  (inl e,
   (t ++ [OpConnect "ws://localhost:8765/" WebSocketClientProtocol])%list).
Proof.
  intros Hconn. unfold hello, bind.
  by rewrite websockets_connect_run, Hconn.
Qed.

End ScriptProofs.

(** ** More runs of the sample client *)

Lemma origin_header_iff_provided_witness :
  ("Origin", "http://example.com")
  ∈ [("Host", "example.com"); ("Origin", "http://example.com");
     ("User-Agent", Sample.USER_AGENT);
     ("Upgrade", "WebSocket"); ("Connection", "Upgrade");
     ("Sec-WebSocket-Key", "key-7"); ("Sec-WebSocket-Version", "13")].
Proof.
  apply (origin_header_iff_provided Sample.USER_AGENT Sample.build_request
           Sample.check_response
           Sample.example_com (Some "http://example.com") None None None
           Sample.plain).
  - reflexivity.
  - vm_compute. reflexivity.
  - intros extras k v [= <-] Hin. by apply elem_of_nil in Hin.
  - intros k v Hin.
    change ((Sample.build_request (random (net Sample.plain))).1)
      with [("Upgrade", "WebSocket"); ("Connection", "Upgrade");
            ("Sec-WebSocket-Key", "key-7"); ("Sec-WebSocket-Version", "13")]
      in Hin.
    repeat (apply elem_of_cons in Hin as [[= -> _]|Hin]; [done|]).
    by apply elem_of_nil in Hin.
  - reflexivity.
Defined.

Lemma user_agent_follows_caller_headers_witness :
  ∃ before,
    [("Host", "example.com"); ("X-B", "1"); ("X-A", "2");
     ("User-Agent", "curl"); ("User-Agent", Sample.USER_AGENT);
     ("Upgrade", "WebSocket"); ("Connection", "Upgrade");
     ("Sec-WebSocket-Key", "key-7"); ("Sec-WebSocket-Version", "13")]
    = (before ++ [("X-B", "1"); ("X-A", "2"); ("User-Agent", "curl")]
         ++ ("User-Agent", Sample.USER_AGENT) :: (Sample.build_request 7).1)%list.
Proof.
  destruct (user_agent_follows_caller_headers Sample.USER_AGENT
              Sample.build_request Sample.check_response
              Sample.example_com None None None
              (Some (ExMapping [("X-B", "1"); ("X-A", "2");
                                ("User-Agent", "curl")]))
              Sample.plain
              [("Host", "example.com"); ("X-B", "1"); ("X-A", "2");
               ("User-Agent", "curl"); ("User-Agent", Sample.USER_AGENT);
               ("Upgrade", "WebSocket"); ("Connection", "Upgrade");
               ("Sec-WebSocket-Key", "key-7"); ("Sec-WebSocket-Version", "13")])
    as (_ & extras & before & _ & Hhs & Hmapping & _).
  - reflexivity.
  - vm_compute. reflexivity.
  - rewrite (Hmapping _ eq_refl) in Hhs. exists before. exact Hhs.
Defined.

Lemma handshake_writes_then_reads_witness :
  log (net (Sample.handshake Sample.example_com None None None None
              Sample.plain).2)
  = [EvWrite (wire_request "/chat" (Sample.plain_headers "example.com"));
     EvRead].
Proof.
  apply (handshake_writes_then_reads Sample.USER_AGENT Sample.build_request
           Sample.check_response
           Sample.example_com None None None None Sample.plain).
  - reflexivity.
  - vm_compute. reflexivity.
Defined.

Lemma malformed_response_raises_witness :
  (Sample.handshake Sample.example_com None None None None
     (Sample.fresh (new_protocol None None None None)
        {| log := []; transport_open := false; random := 7;
           connect_error := None;
           inbound := inl (OtherException "EOFError" "") |})).1
  = inl (InvalidHandshake "Malformed HTTP message"
           (Some (OtherException "EOFError" ""))) ∧
  (Sample.handshake Sample.example_com None None None None
     (Sample.fresh (new_protocol None None None None)
        {| log := []; transport_open := false; random := 7;
           connect_error := None;
           inbound := inl (BaseException "CancelledError" "") |})).1
  = inl (BaseException "CancelledError" "").
Proof.
  split.
  - destruct (malformed_response_raises Sample.USER_AGENT Sample.build_request
                Sample.check_response
                Sample.example_com None None None None
                (Sample.fresh (new_protocol None None None None)
                   {| log := []; transport_open := false; random := 7;
                      connect_error := None;
                      inbound := inl (OtherException "EOFError" "") |})
                [] (OtherException "EOFError" "") _ _
                eq_refl eq_refl (surjective_pairing _)) as (Hwrapped & _).
    apply Hwrapped. reflexivity.
  - destruct (malformed_response_raises Sample.USER_AGENT Sample.build_request
                Sample.check_response
                Sample.example_com None None None None
                (Sample.fresh (new_protocol None None None None)
                   {| log := []; transport_open := false; random := 7;
                      connect_error := None;
                      inbound := inl (BaseException "CancelledError" "") |})
                [] (BaseException "CancelledError" "") _ _
                eq_refl eq_refl (surjective_pairing _)) as (_ & Hraw & _).
    apply Hraw. reflexivity.
Defined.

Lemma bad_status_raises_witness :
  (Sample.handshake Sample.example_com None None None None
     (Sample.fresh (new_protocol None None None None)
        (Sample.peer 7 404 [("Content-Length", "0")]))).1
  = inl (InvalidHandshake "Bad status code: 404" None).
Proof.
  eapply (bad_status_raises Sample.USER_AGENT Sample.build_request
            Sample.check_response
            Sample.example_com None None None None
            (Sample.fresh (new_protocol None None None None)
               (Sample.peer 7 404 [("Content-Length", "0")]))
            [] 404 [("Content-Length", "0")]).
  - reflexivity.
  - reflexivity.
  - lia.
  - apply surjective_pairing.
Defined.

Lemma rejected_response_is_kept_witness :
  response_headers
    (self (Sample.handshake Sample.example_com None None None None
             (Sample.fresh (new_protocol None None None None)
                (Sample.peer 7 101 [("Sec-WebSocket-Accept", "nonsense")]))).2)
  = Some [("Sec-WebSocket-Accept", "nonsense")].
Proof.
  eapply (rejected_response_is_kept Sample.USER_AGENT Sample.build_request
            Sample.check_response
            Sample.example_com None None None None
            (Sample.fresh (new_protocol None None None None)
               (Sample.peer 7 101 [("Sec-WebSocket-Accept", "nonsense")]))).
  - reflexivity.
  - reflexivity.
  - vm_compute. reflexivity.
  - apply surjective_pairing.
Defined.

Lemma handshake_asserts_connecting_witness :
  (Sample.handshake Sample.example_com None None None None
     (Sample.fresh (set_state OPEN (new_protocol None None None None))
        (Sample.accepting 7 []))).1
  = inl AssertionError.
Proof.
  eapply (handshake_asserts_connecting Sample.USER_AGENT Sample.build_request
            Sample.check_response
            Sample.example_com None None None None
            (Sample.fresh (set_state OPEN (new_protocol None None None None))
               (Sample.accepting 7 []))).
  - discriminate.
  - reflexivity.
  - reflexivity.
  - vm_compute. reflexivity.
  - intros x Hx. vm_compute in Hx. discriminate Hx.
  - intros x Hx. vm_compute in Hx. discriminate Hx.
  - apply surjective_pairing.
Defined.

Lemma accepted_response_opens_witness :
  (Sample.handshake Sample.localhost_8765 None None
     (Some ["chat"; "superchat"]) None
     (Sample.fresh (new_protocol None None (Some ["chat"; "superchat"]) None)
        (Sample.accepting 7 [("Sec-WebSocket-Protocol", "superchat")]))).1
  = inr tt.
Proof.
  eapply (accepted_response_opens Sample.USER_AGENT Sample.build_request
            Sample.check_response
            Sample.localhost_8765 None None (Some ["chat"; "superchat"]) None
            (Sample.fresh
               (new_protocol None None (Some ["chat"; "superchat"]) None)
               (Sample.accepting 7 [("Sec-WebSocket-Protocol", "superchat")]))).
  - reflexivity.
  - reflexivity.
  - reflexivity.
  - vm_compute. reflexivity.
  - intros x Hx. vm_compute in Hx. discriminate Hx.
  - intros x Hx. vm_compute in Hx. injection Hx as <-.
    exists ["chat"; "superchat"]. split; [reflexivity|].
    apply list_elem_of_In. simpl. auto.
  - apply surjective_pairing.
Defined.

Lemma echoed_offer_is_negotiated_witness :
  extensions
    (self (Sample.handshake Sample.localhost_8765 None
             (Some ["permessage-deflate"; "x-webkit-deflate-frame"]) None None
             (Sample.fresh
                (new_protocol None
                   (Some ["permessage-deflate"; "x-webkit-deflate-frame"])
                   None None)
                (Sample.accepting 7
                   [("Sec-WebSocket-Extensions",
                     "permessage-deflate, x-webkit-deflate-frame")]))).2)
  = Some ["permessage-deflate"; "x-webkit-deflate-frame"].
Proof.
  eapply (echoed_offer_is_negotiated Sample.USER_AGENT Sample.build_request
            Sample.check_response
            Sample.localhost_8765 None None None
            (Sample.fresh
               (new_protocol None
                  (Some ["permessage-deflate"; "x-webkit-deflate-frame"])
                  None None)
               (Sample.accepting 7
                  [("Sec-WebSocket-Extensions",
                    "permessage-deflate, x-webkit-deflate-frame")]))).
  - reflexivity.
  - reflexivity.
  - reflexivity.
  - vm_compute. reflexivity.
  - discriminate.
  - repeat constructor.
  - reflexivity.
  - vm_compute. reflexivity.
  - intros x Hx. vm_compute in Hx. discriminate Hx.
  - apply surjective_pairing.
Defined.

Lemma connect_returns_negotiated_offers_witness :
  ∃ p w',
    Sample.connect "ws://localhost:8765/" ∅ None None
      (Some ["chat"; "superchat"]) None
      (Sample.accepting 7 [("Sec-WebSocket-Protocol", "superchat")])
    = (inr p, w') ∧
    state p = OPEN ∧
    available_subprotocols p = Some ["chat"; "superchat"].
Proof.
  eexists _, _. split; [vm_compute; reflexivity|].
  edestruct (connect_returns_negotiated_offers Sample.USER_AGENT
               Sample.build_request Sample.check_response Sample.parse_uri
               "ws://localhost:8765/" ∅ None None
               (Some ["chat"; "superchat"]) None
               (Sample.accepting 7 [("Sec-WebSocket-Protocol", "superchat")]))
    as (Hstate & _ & _ & Hsubs & _).
  - vm_compute. reflexivity.
  - split; [exact Hstate|exact Hsubs].
Defined.

Lemma invalid_uri_fails_before_network_witness :
  Sample.connect "http://example.com/" ∅ None None None None
    (Sample.accepting 7 [])
  = (inl (InvalidURI "http://example.com/ isn't a valid URI"),
     Sample.accepting 7 []).
Proof.
  apply (invalid_uri_fails_before_network Sample.USER_AGENT
           Sample.build_request Sample.check_response Sample.parse_uri
           "http://example.com/" ∅ None None None None
           (Sample.accepting 7 [])).
  reflexivity.
Defined.

Lemma connection_error_is_propagated_witness :
  ∃ kwds' w',
    Sample.connect "ws://example.com/chat" ∅ None None None None
      {| log := []; transport_open := false; random := 7;
         connect_error := Some (OSError "Connection refused");
         inbound := inr (101, []) |}
    = (inl (OSError "Connection refused"), w') ∧
    log w' = ([] ++ [EvConnect "example.com" 80 kwds'])%list ∧
    transport_open w' = false.
Proof.
  apply (connection_error_is_propagated Sample.USER_AGENT
           Sample.build_request Sample.check_response Sample.parse_uri
           "ws://example.com/chat" ∅ None None None None
           {| log := []; transport_open := false; random := 7;
              connect_error := Some (OSError "Connection refused");
              inbound := inr (101, []) |}
           Sample.example_com).
  - reflexivity.
  - intros _ Hssl. apply elem_of_dom in Hssl as [x Hx].
    rewrite lookup_empty in Hx. discriminate Hx.
  - reflexivity.
Defined.

Lemma connect_passes_options_on_witness :
  ∃ kwds' later,
    log (Sample.connect "wss://example.com/chat"
           {["ssl" := KwObject "SSLContext"]} None None None None
           (Sample.accepting 7 [])).2
    = ([] ++ EvConnect "example.com" 443 kwds' :: later)%list ∧
    kwds' !! "ssl" = Some (KwObject "SSLContext").
Proof.
  destruct (connect_passes_options_on Sample.USER_AGENT
              Sample.build_request Sample.check_response Sample.parse_uri
              "wss://example.com/chat" {["ssl" := KwObject "SSLContext"]}
              None None None None (Sample.accepting 7 [])
              {| secure := true; host := "example.com"; port := 443;
                 resource_name := "/chat" |})
    as (kwds' & later & Hlog & _ & Hssl & _).
  - reflexivity.
  - intros Hsecure. discriminate Hsecure.
  - exists kwds', later. split; [exact Hlog|].
    apply Hssl. apply lookup_singleton_eq.
Defined.

Lemma successful_connect_network_activity_witness :
  ∃ p w',
    Sample.connect "ws://localhost:8765/" ∅ None None None None
      (Sample.accepting 7 []) = (inr p, w') ∧
    transport_open w' = true ∧
    ∃ kwds',
      log w' = [EvConnect "localhost" 8765 kwds';
                EvWrite (wire_request "/"
                           (Sample.plain_headers "localhost:8765"));
                EvRead].
Proof.
  eexists _, _. split; [vm_compute; reflexivity|].
  edestruct (successful_connect_network_activity Sample.USER_AGENT
               Sample.build_request Sample.check_response Sample.parse_uri
               "ws://localhost:8765/" ∅ None None None None
               (Sample.accepting 7 []))
    as (wsuri & kwds' & hs & Hparse & Hhs & Hlog & Hopen).
  - vm_compute. reflexivity.
  - split; [exact Hopen|].
    vm_compute in Hparse. injection Hparse as <-.
    vm_compute in Hhs. injection Hhs as <-.
    exists kwds'. exact Hlog.
Defined.

Lemma run_tests_operations_witness :
  SampleLab.run_tests SERVER AGENT [] =
  (inr tt,
   [OpConnect "ws://127.0.0.1:8642/getCaseCount" WebSocketClientProtocol;
    OpRecv; OpClose;
    OpPrint "Running test case 1 out of 2" CR;
    OpConnect "ws://127.0.0.1:8642/runCase?case=1&agent=websockets"
      EchoClientProtocol;
    OpWorker;
    OpPrint "Running test case 2 out of 2" CR;
    OpConnect "ws://127.0.0.1:8642/runCase?case=2&agent=websockets"
      EchoClientProtocol;
    OpWorker;
    OpPrint "Ran 2 test cases               " LF;
    OpConnect "ws://127.0.0.1:8642/updateReports?agent=websockets"
      WebSocketClientProtocol;
    OpClose]).
Proof.
  apply (run_tests_operations Sample.USER_AGENT Sample.build_request
           Sample.check_response SampleLab.parse_uri SampleLab.json_loads
           SampleLab.peer SampleLab.answer SERVER AGENT "2" 2 []).
  - intros t uri k Hprefix. unfold websockets_connect.
    rewrite connect_run. unfold SampleLab.parse_uri. rewrite Hprefix.
    eexists. vm_compute. reflexivity.
  - intros t. exists "2". reflexivity.
  - intros t. exists "2". reflexivity.
  - reflexivity.
  - reflexivity.
Defined.

Lemma get_case_count_leaks_on_recv_error_witness :
  SampleLab.get_case_count SampleLab.deaf SERVER [] =
  (inl (OtherException "ConnectionClosed" ""),
   [OpConnect "ws://127.0.0.1:8642/getCaseCount" WebSocketClientProtocol;
    OpRecv]).
Proof.
  eapply (get_case_count_leaks_on_recv_error Sample.USER_AGENT
            Sample.build_request Sample.check_response SampleLab.parse_uri
            SampleLab.json_loads SampleLab.peer SampleLab.deaf SERVER).
  - vm_compute. reflexivity.
  - reflexivity.
Defined.

Lemma hello_always_closes_witness :
  ∃ body,
    (SampleLab.hello SampleLab.deaf []).2
    = ([] ++ OpConnect "ws://localhost:8765/" WebSocketClientProtocol
          :: body ++ [OpClose])%list ∧
    (OpClose ∉ body).
Proof.
  assert (∃ p,
    (websockets_connect Sample.USER_AGENT Sample.build_request
       Sample.check_response SampleLab.parse_uri SampleLab.peer
       "ws://localhost:8765/" WebSocketClientProtocol []).1 = inr p)
    as [p Hp].
  { eexists. vm_compute. reflexivity. }
  destruct (hello_always_closes Sample.USER_AGENT Sample.build_request
              Sample.check_response SampleLab.parse_uri SampleLab.peer
              SampleLab.deaf p []
              (SampleLab.hello SampleLab.deaf []).1
              (SampleLab.hello SampleLab.deaf []).2)
    as (body & Htrace & Hbody & _).
  - exact Hp.
  - apply surjective_pairing.
  - exists body. split; [exact Htrace|exact Hbody].
Defined.

Lemma hello_connect_error_witness :
  hello Sample.USER_AGENT Sample.build_request Sample.check_response
    SampleLab.parse_uri (λ _, Sample.peer 7 403 []) SampleLab.answer []
  = (inl (InvalidHandshake "Bad status code: 403" None),
     [OpConnect "ws://localhost:8765/" WebSocketClientProtocol]).
Proof.
  apply (hello_connect_error Sample.USER_AGENT Sample.build_request
           Sample.check_response SampleLab.parse_uri
           (λ _, Sample.peer 7 403 []) SampleLab.answer).
  vm_compute. reflexivity.
Defined.
